(** * Smart Home Automation: the pattern demo of [main.py], embedded and verified

    The program is a single Python script that stages eight design patterns
    around one shared [Device] class.  Python objects are shared and mutable:
    a [Device] is referenced by commands, caretakers and the hub at once, and
    a command object sits on the history stacks while keeping its own
    [previous_state].  The embedding therefore keeps devices and commands in
    a store indexed by object identity, threads that store through every
    method, and records what the program does to the outside (lines given to
    [print], calls of [Observer.update], calls of [handle_alert]) in a trace. *)

From Stdlib Require Import ZArith Ascii String List.
From stdpp Require Import gmap strings list fin_maps.

Local Open Scope string_scope.
Local Open Scope list_scope.

(** ** Python strings

    Device states, names and command texts are Python [str] values; they are
    modelled as [string], one character per code point, for text in ASCII.
    [str_in needle hay] is Python's [needle in hay]. *)

Module PyStr.

Fixpoint startswith (s p : string) {struct p} : bool :=
  match p, s with
  | EmptyString, _ => true
  | String a p', String b s' => if decide (a = b) then startswith s' p' else false
  | String _ _, EmptyString => false
  end.

Fixpoint str_in (needle hay : string) : bool :=
  startswith hay needle ||
  match hay with
  | EmptyString => false
  | String _ hay' => str_in needle hay'
  end.

(** [bool(s)] for a [str]: only the empty string is falsy. *)
Definition truthy (s : string) : bool :=
  match s with
  | EmptyString => false
  | String _ _ => true
  end.

(** [str.lower] on ASCII: the capitals A to Z go to a to z, every other
    character stays. *)
Definition lower_ascii (c : ascii) : ascii :=
  let n := nat_of_ascii c in
  if (65 <=? n)%nat && (n <=? 90)%nat then ascii_of_nat (n + 32) else c.

Fixpoint lower (s : string) : string :=
  match s with
  | EmptyString => EmptyString
  | String c s' => String (lower_ascii c) (lower s')
  end.

(** [str.isspace] on one ASCII character: TAB, LF, VT, FF, CR, the four
    separators FS, GS, RS, US, and the space. *)
Definition isspace (c : ascii) : bool :=
  let n := nat_of_ascii c in
  ((9 <=? n)%nat && (n <=? 13)%nat) || ((28 <=? n)%nat && (n <=? 32)%nat).

Fixpoint lstrip (s : string) : string :=
  match s with
  | EmptyString => EmptyString
  | String c s' => if isspace c then lstrip s' else s
  end.

(** [rstrip] keeps a character when it is not a space or when something
    remains after it. *)
Fixpoint rstrip (s : string) : string :=
  match s with
  | EmptyString => EmptyString
  | String c s' =>
      match rstrip s' with
      | EmptyString => if isspace c then EmptyString else String c EmptyString
      | r => String c r
      end
  end.

Definition strip (s : string) : string := rstrip (lstrip s).

End PyStr.

Import PyStr.

(** ** Objects, the store and the trace *)

(** Object identity (what Python's [is] and the default [==] compare). *)
Definition ref := nat.

(** [Observer] has one concrete class in the program, [UserApp]; it has no
    fields, so an instance is its identity. *)
Inductive Observer : Set :=
| UserApp (id : ref).

Global Instance Observer_eq_dec : EqDecision Observer.
Proof. solve_decision. Defined.

Inductive HandlerKind : Set :=
| MotionHandler
| AlarmHandler
| PoliceHandler.

Global Instance HandlerKind_eq_dec : EqDecision HandlerKind.
Proof. solve_decision. Defined.

(** The trace, in order.  [Print] is a line the program writes.  [Update]
    and [HandleAlert] record that the method was entered on that receiver,
    so that who was called, how often and in which order can be read off
    the trace. *)
Inductive Event : Type :=
| Print (line : string)                   (* print(line) *)
| Update (o : Observer) (msg : string)    (* o.update(msg) was called *)
| HandleAlert (k : HandlerKind) (alert_level message : string).
                                          (* handle_alert was called on a handler of class k *)

Record Device : Type := mkDevice {
  name : string;
  state : string;
  observers : list Observer
}.

Inductive CommandClass : Set :=
| TurnOnCommand
| TurnOffCommand.

Record Command : Type := mkCommand {
  cls : CommandClass;
  device : ref;
  previous_state : option string     (* None is Python's None *)
}.

Record World : Type := mkWorld {
  devices : gmap ref Device;
  commands : gmap ref Command;
  trace : list Event
}.

Definition empty_world : World := mkWorld ∅ ∅ [].

(** ** A state and exception monad for method bodies *)

Inductive Error : Set :=
| IndexError          (* list index out of range *)
| DanglingRef.        (* a reference to no object: no Python state has one *)

Inductive Result (A : Type) : Type :=
| Ok (a : A)
| Raise (e : Error).
Arguments Ok {A} a.
Arguments Raise {A} e.

Definition M (A : Type) : Type := World -> Result (A * World).

Definition ret {A} (a : A) : M A := fun w => Ok (a, w).

Definition bind {A B} (m : M A) (k : A -> M B) : M B :=
  fun w => match m w with
           | Ok (a, w') => k a w'
           | Raise e => Raise e
           end.

Definition raise {A} (e : Error) : M A := fun _ => Raise e.

Declare Scope py_scope.
Delimit Scope py_scope with py.
Notation "x <- m ;; k" := (bind m (fun x => k))
  (at level 100, m at next level, right associativity) : py_scope.
Notation "m ;;; k" := (bind m (fun _ => k))
  (at level 100, right associativity) : py_scope.
Local Open Scope py_scope.

Definition emit (e : Event) : M unit :=
  fun w => Ok (tt, mkWorld (devices w) (commands w) (trace w ++ [e])).

Definition get_device (d : ref) : M Device :=
  fun w => match devices w !! d with
           | Some dev => Ok (dev, w)
           | None => Raise DanglingRef
           end.

Definition put_device (d : ref) (dev : Device) : M unit :=
  fun w => Ok (tt, mkWorld (<[d := dev]> (devices w)) (commands w) (trace w)).

Definition get_command (c : ref) : M Command :=
  fun w => match commands w !! c with
           | Some cmd => Ok (cmd, w)
           | None => Raise DanglingRef
           end.

Definition put_command (c : ref) (cmd : Command) : M unit :=
  fun w => Ok (tt, mkWorld (devices w) (<[c := cmd]> (commands w)) (trace w)).

(** [for x in l: body x] *)
Fixpoint for_each {A} (l : list A) (body : A -> M unit) : M unit :=
  match l with
  | [] => ret tt
  | x :: l' => body x ;;; for_each l' body
  end.

(** ** OBSERVER *)

(** [UserApp.update]: prints the notification. *)
Definition update (o : Observer) (msg : string) : M unit :=
  emit (Update o msg) ;;;
  match o with
  | UserApp _ => emit (Print ("[Notification] " +:+ msg))
  end.

(** [Device(name)]: a new object, OFF, nobody listening. *)
Definition new_device (nm : string) : M ref :=
  fun w =>
    let d := fresh (dom (devices w)) in
    Ok (d, mkWorld (<[d := mkDevice nm "OFF" []]> (devices w)) (commands w) (trace w)).

Definition add_observer (d : ref) (obs : Observer) : M unit :=
  dev <- get_device d ;;
  if bool_decide (obs ∈ observers dev) then ret tt
  else put_device d (mkDevice (name dev) (state dev) (observers dev ++ [obs])).

(** [list.remove(x)] drops the first occurrence. *)
Fixpoint list_remove (obs : Observer) (l : list Observer) : list Observer :=
  match l with
  | [] => []
  | o :: l' => if decide (o = obs) then l' else o :: list_remove obs l'
  end.

Definition remove_observer (d : ref) (obs : Observer) : M unit :=
  dev <- get_device d ;;
  if bool_decide (obs ∈ observers dev)
  then put_device d (mkDevice (name dev) (state dev) (list_remove obs (observers dev)))
  else ret tt.

(** The f-string of [set_state]. *)
Definition state_msg (nm st : string) : string := nm +:+ " -> " +:+ st.

(** The loop body reads [self.name] and [self.state] again at every turn. *)
Definition notify (d : ref) (o : Observer) : M unit :=
  dev <- get_device d ;;
  update o (state_msg (name dev) (state dev)).

Definition set_state (d : ref) (st : string) : M unit :=
  dev <- get_device d ;;
  let old_state := state dev in
  put_device d (mkDevice (name dev) st (observers dev)) ;;;
  if bool_decide (old_state ≠ st)
  then for_each (observers dev) (notify d)
  else ret tt.

(** ** COMMAND *)

Module Cmd.

(** The state a command class sets: the literal in its [execute]. *)
Definition target (k : CommandClass) : string :=
  match k with
  | TurnOnCommand => "ON"
  | TurnOffCommand => "OFF"
  end.

(** [TurnOnCommand(device)] / [TurnOffCommand(device)]: [Command.__init__]. *)
Definition new (k : CommandClass) (d : ref) : M ref :=
  fun w =>
    let c := fresh (dom (commands w)) in
    Ok (c, mkWorld (devices w) (<[c := mkCommand k d None]> (commands w)) (trace w)).

(** [execute] is the same in both classes up to the literal. *)
Definition execute (c : ref) : M unit :=
  cmd <- get_command c ;;
  dev <- get_device (device cmd) ;;
  put_command c (mkCommand (cls cmd) (device cmd) (Some (state dev))) ;;;
  set_state (device cmd) (target (cls cmd)).

(** [if self.previous_state:] is Python truthiness: [None] and the empty
    string both fail the test. *)
Definition undo (c : ref) : M unit :=
  cmd <- get_command c ;;
  match previous_state cmd with
  | Some prev => if truthy prev then set_state (device cmd) prev else ret tt
  | None => ret tt
  end.

End Cmd.

(** [list.pop()]: the last element and the list without it. *)
Definition pop {A} (l : list A) : option (list A * A) :=
  match last l with
  | Some x => Some (removelast l, x)
  | None => None
  end.

Record CommandHistory : Type := mkHistory {
  history : list ref;       (* most recent last *)
  redo_stack : list ref     (* most recent last *)
}.

Module History.

(** [CommandHistory()] *)
Definition new : CommandHistory := mkHistory [] [].

Definition execute_command (h : CommandHistory) (command : ref) : M CommandHistory :=
  Cmd.execute command ;;;
  ret (mkHistory (history h ++ [command]) []).

Definition undo (h : CommandHistory) : M CommandHistory :=
  match pop (history h) with
  | Some (rest, command) =>
      Cmd.undo command ;;;
      ret (mkHistory rest (redo_stack h ++ [command]))
  | None => ret h
  end.

Definition redo (h : CommandHistory) : M CommandHistory :=
  match pop (redo_stack h) with
  | Some (rest, command) =>
      Cmd.execute command ;;;
      ret (mkHistory (history h ++ [command]) rest)
  | None => ret h
  end.

(** The calls a client can make on a history. *)
Inductive Call : Set :=
| CallExecute (command : ref)
| CallUndo
| CallRedo.

Definition call (k : Call) (h : CommandHistory) : M CommandHistory :=
  match k with
  | CallExecute command => execute_command h command
  | CallUndo => undo h
  | CallRedo => redo h
  end.

(** A sequence of calls, one after the other on the same store. *)
Fixpoint calls (ks : list Call) (h : CommandHistory) : M CommandHistory :=
  match ks with
  | [] => ret h
  | k :: ks' => h' <- call k h ;; calls ks' h'
  end.

(** The histories that calls that [allowed] lets through lead to, from a new one.
    Between two calls the rest of the program may do anything to the store. *)
Inductive reachable (allowed : CommandHistory -> Call -> Prop) : CommandHistory -> Prop :=
| reach_new : reachable allowed new
| reach_call h k w h' w' :
    reachable allowed h -> allowed h k -> call k h w = Ok (h', w') -> reachable allowed h'.

Definition any_call : CommandHistory -> Call -> Prop := fun _ _ => True.

(** A command object is handed to [execute_command] only while it is not
    on the undo stack. *)
Definition not_pending (h : CommandHistory) (k : Call) : Prop :=
  match k with
  | CallExecute command => command ∉ history h
  | _ => True
  end.

End History.

(** ** MEMENTO *)

Record DeviceMemento : Type := mkMemento { memento_state : string }.

Record DeviceCaretaker : Type := mkCaretaker {
  caretaker_device : ref;
  saved_states : list DeviceMemento
}.

(** [l[i]] for a Python [int]: negative indices count from the end. *)
Definition py_index {A} (l : list A) (i : Z) : option A :=
  let n := Z.of_nat (length l) in
  if (0 <=? i)%Z then (if (i <? n)%Z then l !! Z.to_nat i else None)
  else if (- n <=? i)%Z then l !! Z.to_nat (n + i) else None.

Module Caretaker.

Definition new (d : ref) : DeviceCaretaker := mkCaretaker d [].

Definition save_state (ct : DeviceCaretaker) : M (DeviceMemento * DeviceCaretaker) :=
  dev <- get_device (caretaker_device ct) ;;
  let memento := mkMemento (state dev) in
  emit (Print ("Config saved: " +:+ memento_state memento)) ;;;
  ret (memento, mkCaretaker (caretaker_device ct) (saved_states ct ++ [memento])).

(** The assignment [self.device.state = memento.state] writes the field;
    it is not a call of [set_state]. *)
Definition restore_state (ct : DeviceCaretaker) (index : Z) : M unit :=
  match saved_states ct with
  | _ :: _ =>
      match py_index (saved_states ct) index with
      | Some memento =>
          dev <- get_device (caretaker_device ct) ;;
          put_device (caretaker_device ct)
            (mkDevice (name dev) (memento_state memento) (observers dev)) ;;;
          emit (Print ("Config restored -> " +:+ memento_state memento))
      | None => raise IndexError
      end
  | [] => emit (Print "No saved states to restore")
  end.

(** [restore_state()] *)
Definition restore_last (ct : DeviceCaretaker) : M unit := restore_state ct (-1).

End Caretaker.

(** ** INTERPRETER *)

Definition interpret (command_text : string) (d : ref) : M string :=
  let command_text := strip (lower command_text) in
  if str_in "turn on" command_text || str_in "switch on" command_text then
    set_state d "ON" ;;;
    dev <- get_device d ;;
    ret ("Turning " +:+ name dev +:+ " ON")
  else if str_in "turn off" command_text || str_in "switch off" command_text then
    set_state d "OFF" ;;;
    dev <- get_device d ;;
    ret ("Turning " +:+ name dev +:+ " OFF")
  else if str_in "toggle" command_text then
    dev <- get_device d ;;
    let new_state := if bool_decide (state dev = "ON") then "OFF" else "ON" in
    set_state d new_state ;;;
    dev <- get_device d ;;
    ret ("Toggling " +:+ name dev +:+ " to " +:+ new_state)
  else ret "Command not recognized".

(** ** CHAIN OF RESPONSIBILITY *)

#[local] Unset Elimination Schemes.
Inductive AlertHandler : Type :=
| Handler (k : HandlerKind) (next_handler : option AlertHandler).
#[local] Set Elimination Schemes.

(** The literal each class compares [alert_level] with. *)
Definition level (k : HandlerKind) : string :=
  match k with
  | MotionHandler => "motion"
  | AlarmHandler => "alarm"
  | PoliceHandler => "police"
  end.

(** The line each class prints. *)
Definition alert_line (k : HandlerKind) (message : string) : string :=
  match k with
  | MotionHandler => "Motion detected! " +:+ message
  | AlarmHandler => "Alarm triggered! " +:+ message
  | PoliceHandler => "Police notified! " +:+ message
  end.

Fixpoint handle_alert (h : AlertHandler) (alert_level message : string) : M unit :=
  match h with
  | Handler k next_handler =>
      emit (HandleAlert k alert_level message) ;;;
      if bool_decide (alert_level = level k) then
        emit (Print (alert_line k message))
      else
        match next_handler with
        | Some next => handle_alert next alert_level message
        | None => ret tt
        end
  end.

(** The handlers of a chain, head first. *)
Fixpoint chain (h : AlertHandler) : list HandlerKind :=
  match h with
  | Handler k next_handler =>
      k :: match next_handler with
           | Some next => chain next
           | None => []
           end
  end.

(** The chain the script builds: motion, then alarm, then police. *)
Definition police_handler : AlertHandler := Handler PoliceHandler None.
Definition alarm_handler : AlertHandler := Handler AlarmHandler (Some police_handler).
Definition motion_handler : AlertHandler := Handler MotionHandler (Some alarm_handler).

(** ** STATE

    The four state classes have no fields; a state object is its class. *)

Inductive FanState : Set :=
| OffState
| LowState
| MediumState
| HighState.

Global Instance FanState_eq_dec : EqDecision FanState.
Proof. solve_decision. Defined.

Record Fan : Type := mkFan { fan_state : FanState }.

Module Fans.

(** [Fan()] *)
Definition new : Fan := mkFan OffState.

Definition set_state (fan : Fan) (st : FanState) : Fan := mkFan st.

(** [press] of each state class: the fan with its next state, and the
    string returned. *)
Definition press (st : FanState) (fan : Fan) : Fan * string :=
  match st with
  | OffState => (set_state fan LowState, "LOW")
  | LowState => (set_state fan MediumState, "MEDIUM")
  | MediumState => (set_state fan HighState, "HIGH")
  | HighState => (set_state fan OffState, "OFF")
  end.

Definition press_button (fan : Fan) : M Fan :=
  let (fan', result) := press (fan_state fan) fan in
  emit (Print ("Fan -> " +:+ result)) ;;;
  ret fan'.

(** [for _ in range(n): fan.press_button()] *)
Fixpoint press_times (n : nat) (fan : Fan) : M Fan :=
  match n with
  | O => ret fan
  | S n' => fan' <- press_button fan ;; press_times n' fan'
  end.

End Fans.

(** ** STRATEGY *)

Inductive SchedulingStrategy : Set :=
| TimedStrategy
| SensorStrategy.

Record Scheduler : Type := mkScheduler { strategy : option SchedulingStrategy }.

Module Scheduling.

(** [Scheduler(strategy)]; the default argument is [None]. *)
Definition new (s : option SchedulingStrategy) : Scheduler := mkScheduler s.

Definition set_strategy (sch : Scheduler) (s : SchedulingStrategy) : Scheduler :=
  mkScheduler (Some s).

(** [run] of each strategy class prints and does nothing else. *)
Definition run (s : SchedulingStrategy) (d : ref) : M unit :=
  dev <- get_device d ;;
  match s with
  | TimedStrategy => emit (Print (name dev +:+ " turns ON at 7 PM"))
  | SensorStrategy => emit (Print (name dev +:+ " turns ON if motion detected"))
  end.

Definition apply (sch : Scheduler) (d : ref) : M unit :=
  match strategy sch with
  | Some s => run s d
  | None => ret tt
  end.

End Scheduling.

(** ** MEDIATOR *)

Record SmartHomeHub : Type := mkHub { hub_devices : gmap string ref }.

Module Hub.

(** [SmartHomeHub()] *)
Definition new : SmartHomeHub := mkHub ∅.

Definition register_device (hub : SmartHomeHub) (nm : string) (d : ref) : M SmartHomeHub :=
  emit (Print ("Registered " +:+ nm)) ;;;
  ret (mkHub (<[nm := d]> (hub_devices hub))).

(** The extra positional arguments [*args] are accepted and not used. *)
Definition send_command (hub : SmartHomeHub) (device_name command : string)
    (args : list string) : M unit :=
  match hub_devices hub !! device_name with
  | Some d =>
      if bool_decide (command = "turn_on") then set_state d "ON"
      else if bool_decide (command = "turn_off") then set_state d "OFF"
      else emit (Print ("Unknown command: " +:+ command))
  | None => emit (Print ("Device " +:+ device_name +:+ " not found"))
  end.

End Hub.

(** ** Reading a trace *)

(** The part of the trace of [w'] that was added since [w]. *)
Definition emitted (w w' : World) : list Event := drop (length (trace w)) (trace w').

Definition is_update (e : Event) : bool :=
  match e with Update _ _ => true | _ => false end.

Definition is_print (e : Event) : bool :=
  match e with Print _ => true | _ => false end.

(** The calls of [Observer.update] in a piece of trace. *)
Definition updates (t : list Event) : list Event := List.filter is_update t.

(** The lines printed in a piece of trace. *)
Definition printed (t : list Event) : list Event := List.filter is_print t.

(** The status of device [d], when it exists. *)
Definition status (w : World) (d : ref) : option string := state <$> devices w !! d.

(** The receivers of the [update] calls in a piece of trace, in call order. *)
Definition receiver (e : Event) : option Observer :=
  match e with Update o _ => Some o | _ => None end.

Definition receivers (t : list Event) : list Observer := omap receiver t.

(** What one round of the loop of [set_state] leaves in the trace. *)
Definition notifications (nm st : string) (obs : list Observer) : list Event :=
  flat_map (fun o => [Update o (state_msg nm st);
                      Print ("[Notification] " +:+ state_msg nm st)]) obs.

(** What [set_state st] leaves in the trace on a device that is [dev]. *)
Definition announce (dev : Device) (st : string) : list Event :=
  if bool_decide (state dev ≠ st)
  then notifications (name dev) st (observers dev)
  else [].

(** The store after [set_state st] on device [d], which was [dev]. *)
Definition with_state (w : World) (d : ref) (dev : Device) (st : string) : World :=
  mkWorld (<[d := mkDevice (name dev) st (observers dev)]> (devices w))
          (commands w)
          (trace w ++ announce dev st).

(** Every command refers to a device of the store, as every Python
    reference does. *)
Definition wf_world (w : World) : Prop :=
  forall c cmd, commands w !! c = Some cmd -> is_Some (devices w !! device cmd).

(** What a dispatch along handlers [ks] leaves in the trace: every handler
    reached is entered, and the first one whose level is the alert's prints
    its line and ends the dispatch. *)
Fixpoint alert_trace (ks : list HandlerKind) (alert_level message : string) : list Event :=
  match ks with
  | [] => []
  | k :: ks' =>
      HandleAlert k alert_level message ::
      (if bool_decide (alert_level = level k)
       then [Print (alert_line k message)]
       else alert_trace ks' alert_level message)
  end.

(** The handlers entered by the [handle_alert] calls of a piece of trace. *)
Definition entered (e : Event) : option HandlerKind :=
  match e with HandleAlert k _ _ => Some k | _ => None end.

Definition handlers_entered (t : list Event) : list HandlerKind := omap entered t.

(** The value a method returns, the store left aside. *)
Definition value_of {A} (r : Result (A * World)) : option A :=
  match r with
  | Ok (a, _) => Some a
  | Raise _ => None
  end.

(** ** Scenarios

    Stores and call sequences the statements below are tried on.  The first
    is the state the script is in when it reaches the Command section: the
    living-room light is ON, the user's app listens to it, and a
    [TurnOffCommand] and a [TurnOnCommand] for it exist. *)

Definition light : ref := 0.
Definition user_app : Observer := UserApp 0.
Definition turn_off : ref := 0.
Definition turn_on : ref := 1.

Definition living_room : World :=
  mkWorld {[ light := mkDevice "Living Room Light" "ON" [user_app] ]}
          {[ turn_off := mkCommand TurnOffCommand light None;
             turn_on := mkCommand TurnOnCommand light None ]}
          [].

(** A device is given the empty status, then switched on through a history
    and the switch is undone; the result is the status before the execute
    and the status after the undo. *)
Definition undo_after_empty_status : M (string * string) :=
  d <- new_device "Living Room Light" ;;
  add_observer d user_app ;;;
  set_state d "" ;;;
  before <- get_device d ;;
  c <- Cmd.new TurnOnCommand d ;;
  h <- History.execute_command History.new c ;;
  _ <- History.undo h ;;
  after <- get_device d ;;
  ret (state before, state after).

(** The scenario of the specification: a device that is OFF is switched
    on through a history, the switch is undone and redone; the result is the
    status after each of the three calls. *)
Definition on_undo_redo : M (list string) :=
  d <- new_device "Living Room Light" ;;
  c <- Cmd.new TurnOnCommand d ;;
  h <- History.execute_command History.new c ;;
  after_execute <- get_device d ;;
  h <- History.undo h ;;
  after_undo <- get_device d ;;
  _ <- History.redo h ;;
  after_redo <- get_device d ;;
  ret [state after_execute; state after_undo; state after_redo].

(** The Command section of the script, run on the light as the Observer
    section left it: [turn_off] is executed and undone. *)
Definition command_section : M string :=
  h <- History.execute_command History.new turn_off ;;
  _ <- History.undo h ;;
  dev <- get_device light ;;
  ret (state dev).

(** Every command on the stacks of [h] is an object of the store. *)
Definition stacks_in_store (w : World) (h : CommandHistory) : Prop :=
  forall c, c ∈ history h ++ redo_stack h -> is_Some (commands w !! c).

(** The caretaker of the script after [save_state()] on the light. *)
Definition caretaker : DeviceCaretaker := mkCaretaker light [mkMemento "OFF"].

(** The commands of a history in the order they were first executed: the
    undo stack, then the redo stack from its top down. *)
Definition timeline (h : CommandHistory) : list ref :=
  history h ++ rev (redo_stack h).

(** [undo] and [redo], the calls that take no command. *)
Definition is_move (k : History.Call) : bool :=
  match k with
  | History.CallExecute _ => false
  | _ => true
  end.

(** Two stores with the same objects wired the same way: the same devices
    with the same names and listeners, the same commands with the same
    classes and devices.  Statuses, captured statuses and the trace may
    differ. *)
Definition same_wiring (w w' : World) : Prop :=
  (forall d, name <$> devices w' !! d = name <$> devices w !! d) /\
  (forall d, observers <$> devices w' !! d = observers <$> devices w !! d) /\
  (forall c, cls <$> commands w' !! c = cls <$> commands w !! c) /\
  (forall c, device <$> commands w' !! c = device <$> commands w !! c).

(** Every command of [cs] is an object of the store, and so is its device,
    whose status is not the empty string. *)
Definition executable (w : World) (cs : list ref) : Prop :=
  forall c, c ∈ cs ->
    exists cmd dev, commands w !! c = Some cmd /\
                    devices w !! device cmd = Some dev /\
                    state dev ≠ "".

(** A second light and two commands for it, beside the living-room light. *)
Definition porch : ref := 1.
Definition porch_on : ref := 2.
Definition porch_off : ref := 3.

Definition two_lights : World :=
  mkWorld {[ light := mkDevice "Living Room Light" "ON" [user_app];
             porch := mkDevice "Porch Light" "OFF" [] ]}
          {[ turn_off := mkCommand TurnOffCommand light None;
             turn_on := mkCommand TurnOnCommand light None;
             porch_on := mkCommand TurnOnCommand porch None;
             porch_off := mkCommand TurnOffCommand porch None ]}
          [].

(** The state after [st] in the cycle of the button, and the name of a
    state as the button prints it. *)
Definition next_state (st : FanState) : FanState :=
  match st with
  | OffState => LowState
  | LowState => MediumState
  | MediumState => HighState
  | HighState => OffState
  end.

Definition speed (st : FanState) : string :=
  match st with
  | OffState => "OFF"
  | LowState => "LOW"
  | MediumState => "MEDIUM"
  | HighState => "HIGH"
  end.

(** The lines of [n] presses of the button of a fan in state [st]. *)
Fixpoint fan_lines (n : nat) (st : FanState) : list Event :=
  match n with
  | O => []
  | S n' => Print ("Fan -> " +:+ speed (next_state st)) :: fan_lines n' (next_state st)
  end.

(** A hub with the living-room light registered, as in the script. *)
Definition hub : SmartHomeHub := mkHub {[ "living_room_light" := light ]}.

(** A caretaker of the light with three saved states, oldest first. *)
Definition three_saves : DeviceCaretaker :=
  mkCaretaker light [mkMemento "OFF"; mkMemento "DIM"; mkMemento "ON"].

(** What the interpreter finds in a command text: the tests of its three
    branches, on the text in lower case without the white space around it. *)
Definition says_on (command_text : string) : bool :=
  str_in "turn on" (strip (lower command_text))
  || str_in "switch on" (strip (lower command_text)).

Definition says_off (command_text : string) : bool :=
  str_in "turn off" (strip (lower command_text))
  || str_in "switch off" (strip (lower command_text)).

Definition says_toggle (command_text : string) : bool :=
  str_in "toggle" (strip (lower command_text)).

(** How often the status changes when a device whose status is [s0] is set
    to the statuses [sts] one after the other. *)
Fixpoint changes (s0 : string) (sts : list string) : nat :=
  match sts with
  | [] => 0
  | st :: sts' => (if bool_decide (s0 ≠ st) then 1 else 0) + changes st sts'
  end.

(** ** Basic facts: strings *)

Section Strings.

Lemma append_nil_l (s : string) : "" +:+ s = s.
Proof. reflexivity. Qed.

Lemma append_cons (a : ascii) (p s : string) : String a p +:+ s = String a (p +:+ s).
Proof. reflexivity. Qed.

Lemma append_nil_r (s : string) : s +:+ "" = s.
Proof. induction s as [|a s IH]; [done|]. by rewrite append_cons, IH. Qed.

Lemma append_assoc (s1 s2 s3 : string) : (s1 +:+ s2) +:+ s3 = s1 +:+ s2 +:+ s3.
Proof.
  induction s1 as [|a s1 IH]; [done|].
  by rewrite !append_cons, IH.
Qed.

Lemma startswith_app (p s : string) : startswith (p +:+ s) p = true.
Proof.
  induction p as [|a p IH]; [done|].
  rewrite append_cons; simpl. by rewrite decide_True.
Qed.

Lemma str_in_unfold (x hay : string) :
  str_in x hay =
  startswith hay x || match hay with
                      | EmptyString => false
                      | String _ hay' => str_in x hay'
                      end.
Proof. by destruct hay. Qed.

Lemma str_in_here (x hay : string) : startswith hay x = true -> str_in x hay = true.
Proof. intros H. rewrite str_in_unfold. by rewrite H. Qed.

Lemma str_in_later (x : string) (a : ascii) (hay : string) :
  str_in x hay = true -> str_in x (String a hay) = true.
Proof. intros H. rewrite str_in_unfold, H. apply orb_true_r. Qed.

Lemma str_in_app (x pre post : string) : str_in x (pre +:+ x +:+ post) = true.
Proof.
  induction pre as [|a pre IH].
  - rewrite append_nil_l. apply str_in_here, startswith_app.
  - rewrite append_cons. by apply str_in_later.
Qed.

Lemma str_in_prefix (x post : string) : str_in x (x +:+ post) = true.
Proof. apply (str_in_app x "" post). Qed.

Lemma str_in_suffix (x pre : string) : str_in x (pre +:+ x) = true.
Proof.
  pose proof (str_in_app x pre "") as H. by rewrite append_nil_r in H.
Qed.

Lemma state_msg_has_name (nm st : string) : str_in nm (state_msg nm st) = true.
Proof. apply str_in_prefix. Qed.

Lemma state_msg_has_state (nm st : string) : str_in st (state_msg nm st) = true.
Proof.
  unfold state_msg. rewrite <- append_assoc. apply str_in_suffix.
Qed.

(** *** Substrings, [lower] and [strip] *)

Lemma startswith_spec (s x : string) :
  startswith s x = true -> exists post, s = x +:+ post.
Proof.
  revert s. induction x as [|a x IH]; intros s; simpl.
  - intros _. by exists s.
  - destruct s as [|b s]; [done|]. case_decide as Hab; [|done]. subst b.
    intros [post ->]%IH. by exists post.
Qed.

Lemma str_in_spec (x s : string) :
  str_in x s = true <-> exists pre post, s = pre +:+ x +:+ post.
Proof.
  split.
  - induction s as [|c s IH]; rewrite str_in_unfold.
    + rewrite orb_false_r. intros [post ->]%startswith_spec. by exists "", post.
    + intros [[post ->]%startswith_spec | (pre & post & ->)%IH]%orb_true_iff.
      * by exists "", post.
      * by exists (String c pre), post.
  - intros (pre & post & ->). apply str_in_app.
Qed.

Lemma str_in_nil (x : string) : x ≠ "" -> str_in x "" = false.
Proof. by destruct x. Qed.

Lemma lower_app (s1 s2 : string) : lower (s1 +:+ s2) = lower s1 +:+ lower s2.
Proof.
  induction s1 as [|a s1 IH]; [done|].
  rewrite append_cons; simpl. by rewrite IH.
Qed.

Lemma str_in_lower (x s : string) :
  str_in x s = true -> str_in (lower x) (lower s) = true.
Proof.
  intros (pre & post & ->)%str_in_spec.
  rewrite !lower_app. apply str_in_app.
Qed.

Lemma lstrip_spec (s : string) : exists pre, s = pre +:+ lstrip s.
Proof.
  induction s as [|c s [pre IH]]; simpl; [by exists ""|].
  destruct (isspace c).
  - exists (String c pre). by rewrite append_cons, <- IH.
  - by exists "".
Qed.

Lemma rstrip_spec (s : string) : exists post, s = rstrip s +:+ post.
Proof.
  induction s as [|c s [post IH]]; simpl; [by exists ""|].
  destruct (rstrip s) as [|b r] eqn:Hr.
  - destruct (isspace c).
    + by exists (String c s).
    + exists post. rewrite append_cons. by rewrite <- IH.
  - exists post. rewrite append_cons. by rewrite <- IH.
Qed.

(** What [strip] returns is a piece of what it was given. *)
Lemma str_in_strip_inv (x s : string) :
  str_in x (strip s) = true -> str_in x s = true.
Proof.
  intros (p & q & Hs)%str_in_spec. apply str_in_spec.
  destruct (lstrip_spec s) as [pre Hpre].
  destruct (rstrip_spec (lstrip s)) as [post Hpost].
  fold (strip s) in Hpost. rewrite Hs in Hpost. rewrite Hpost in Hpre.
  exists (pre +:+ p), (q +:+ post). rewrite Hpre.
  by rewrite !append_assoc.
Qed.

Lemma str_in_lstrip (x s : string) (a : ascii) (x' : string) :
  x = String a x' -> isspace a = false ->
  str_in x s = true -> str_in x (lstrip s) = true.
Proof.
  intros -> Ha. induction s as [|c s IH]; [done|].
  rewrite str_in_unfold. simpl lstrip.
  destruct (isspace c) eqn:Hc.
  - simpl startswith. case_decide as Hac; [congruence|]. simpl. exact IH.
  - intros H. by rewrite str_in_unfold.
Qed.

Lemma startswith_rstrip (x s : string) :
  x ≠ "" -> rstrip x = x ->
  startswith s x = true -> startswith (rstrip s) x = true.
Proof.
  revert s. induction x as [|a x IH]; intros s Hne Hx; [done|].
  destruct s as [|c s]; [done|]. simpl startswith.
  case_decide as Hac; [|done]. subst c. intros Hs.
  simpl in Hx. destruct x as [|b x].
  - simpl in Hx. destruct (isspace a) eqn:Ha; [done|].
    simpl. destruct (rstrip s); rewrite ?Ha; simpl; by rewrite decide_True.
  - assert (rstrip (String b x) = String b x) as Hx'.
    { destruct (rstrip (String b x)) as [|b' r] eqn:Hr.
      - destruct (isspace a); congruence.
      - congruence. }
    specialize (IH s ltac:(done) Hx' Hs).
    simpl rstrip at 1. destruct (rstrip s) as [|c r] eqn:Hr; [done|].
    simpl. by rewrite decide_True.
Qed.

Lemma str_in_rstrip (x s : string) :
  x ≠ "" -> rstrip x = x ->
  str_in x s = true -> str_in x (rstrip s) = true.
Proof.
  intros Hne Hx. induction s as [|c s IH].
  - by rewrite str_in_nil.
  - rewrite str_in_unfold.
    intros [Hhere | Hlater]%orb_true_iff.
    + by apply str_in_here, startswith_rstrip.
    + specialize (IH Hlater). simpl.
      destruct (rstrip s) as [|b r] eqn:Hr; [by rewrite str_in_nil in IH|].
      by apply str_in_later.
Qed.

(** A word without white space at either end that occurs in a text still
    occurs in it after [strip]. *)
Lemma str_in_strip (x s : string) (a : ascii) (x' : string) :
  x = String a x' -> isspace a = false -> rstrip x = x ->
  str_in x s = true -> str_in x (strip s) = true.
Proof.
  intros Hx Ha Hr Hin. unfold strip.
  apply str_in_rstrip; [by subst x | done |].
  by apply (str_in_lstrip x s a x').
Qed.

End Strings.

(** ** Basic facts: the store *)

Section Store.

Lemma emitted_app (w w' : World) (t : list Event) :
  trace w' = trace w ++ t -> emitted w w' = t.
Proof. unfold emitted. intros ->. by rewrite drop_app_length. Qed.

Lemma emitted_same (w w' : World) : trace w' = trace w -> emitted w w' = [].
Proof. intros H. apply emitted_app. by rewrite app_nil_r. Qed.

Lemma receivers_notifications (nm st : string) (obs : list Observer) :
  receivers (notifications nm st obs) = obs.
Proof. induction obs as [|o obs IH]; simpl; [done|]. by f_equal. Qed.

Lemma updates_notifications (nm st : string) (obs : list Observer) :
  updates (notifications nm st obs) = map (fun o => Update o (state_msg nm st)) obs.
Proof. induction obs as [|o obs IH]; simpl; [done|]. by f_equal. Qed.

Lemma for_each_notify (d : ref) (dev : Device) (obs : list Observer)
    (devs : gmap ref Device) (cmds : gmap ref Command) (t : list Event) :
  devs !! d = Some dev ->
  for_each obs (notify d) (mkWorld devs cmds t) =
  Ok (tt, mkWorld devs cmds (t ++ notifications (name dev) (state dev) obs)).
Proof.
  intros Hd. revert t.
  induction obs as [|o obs IH]; intros t; simpl.
  - by rewrite app_nil_r.
  - unfold bind at 1. unfold notify at 1. unfold bind, get_device; simpl.
    rewrite Hd. destruct o; simpl. rewrite IH.
    by rewrite <- !app_assoc.
Qed.

Lemma set_state_ok (w : World) (d : ref) (dev : Device) (st : string) :
  devices w !! d = Some dev ->
  set_state d st w = Ok (tt, with_state w d dev st).
Proof.
  intros Hd. destruct w as [devs cmds t]; simpl in *.
  unfold set_state, with_state, announce, bind, get_device, put_device; simpl.
  rewrite Hd.
  destruct (bool_decide (state dev ≠ st)).
  - rewrite (for_each_notify d (mkDevice (name dev) st (observers dev))); [done|].
    apply lookup_insert_eq.
  - unfold ret. by rewrite app_nil_r.
Qed.

Lemma set_state_raises (w : World) (d : ref) (st : string) :
  devices w !! d = None -> set_state d st w = Raise DanglingRef.
Proof. intros Hd. unfold set_state, bind, get_device. by rewrite Hd. Qed.

Lemma status_with_state (w : World) (d : ref) (dev : Device) (st : string) :
  status (with_state w d dev st) d = Some st.
Proof. unfold status, with_state; simpl. by rewrite lookup_insert_eq. Qed.

Lemma status_with_state_ne (w : World) (d d' : ref) (dev : Device) (st : string) :
  d ≠ d' -> status (with_state w d dev st) d' = status w d'.
Proof. intros Hne. unfold status, with_state; simpl. by rewrite lookup_insert_ne. Qed.

End Store.

(** ** Basic facts: commands and the history *)

Section Commands.

Lemma pop_snoc {A} (l : list A) (x : A) : pop (l ++ [x]) = Some (l, x).
Proof. unfold pop. by rewrite last_snoc, removelast_last. Qed.

Lemma pop_nil {A} : pop (@nil A) = None.
Proof. reflexivity. Qed.

Lemma pop_Some {A} (l rest : list A) (x : A) :
  pop l = Some (rest, x) -> l = rest ++ [x].
Proof.
  destruct l as [|y l] using rev_ind; [done|].
  rewrite pop_snoc. by intros [= -> ->].
Qed.

Lemma pop_None {A} (l : list A) : pop l = None -> l = [].
Proof.
  destruct l as [|y l] using rev_ind; [done|]. by rewrite pop_snoc.
Qed.

(** The store after [execute] on command [c], which was [cmd], on a device
    that was [dev]. *)
Lemma execute_ok (w : World) (c : ref) (cmd : Command) (dev : Device) :
  commands w !! c = Some cmd ->
  devices w !! device cmd = Some dev ->
  Cmd.execute c w =
  Ok (tt, mkWorld
            (<[device cmd := mkDevice (name dev) (Cmd.target (cls cmd)) (observers dev)]>
               (devices w))
            (<[c := mkCommand (cls cmd) (device cmd) (Some (state dev))]> (commands w))
            (trace w ++ announce dev (Cmd.target (cls cmd)))).
Proof.
  intros Hc Hd. unfold Cmd.execute, bind, get_command, get_device, put_command.
  rewrite Hc, Hd; simpl.
  by rewrite (set_state_ok _ _ dev).
Qed.

Lemma undo_never_executed (w : World) (c : ref) (cmd : Command) :
  commands w !! c = Some cmd -> previous_state cmd = None ->
  Cmd.undo c w = Ok (tt, w).
Proof.
  intros Hc Hp. unfold Cmd.undo, bind, get_command. by rewrite Hc, Hp.
Qed.

Lemma undo_falsy (w : World) (c : ref) (cmd : Command) :
  commands w !! c = Some cmd -> previous_state cmd = Some "" ->
  Cmd.undo c w = Ok (tt, w).
Proof.
  intros Hc Hp. unfold Cmd.undo, bind, get_command. by rewrite Hc, Hp.
Qed.

Lemma undo_truthy (w : World) (c : ref) (cmd : Command) (dev : Device) (prev : string) :
  commands w !! c = Some cmd -> previous_state cmd = Some prev -> prev ≠ "" ->
  devices w !! device cmd = Some dev ->
  Cmd.undo c w = Ok (tt, with_state w (device cmd) dev prev).
Proof.
  intros Hc Hp Hne Hd. unfold Cmd.undo, bind, get_command. rewrite Hc, Hp.
  destruct prev; [done|]. simpl. by apply set_state_ok.
Qed.

(** Undoing the command that was executed last, on a device whose status
    before was not the empty string, gives that status back. *)
Lemma execute_then_undo (w : World) (h : CommandHistory) (c : ref)
    (cmd : Command) (dev : Device) :
  commands w !! c = Some cmd ->
  devices w !! device cmd = Some dev ->
  state dev ≠ "" ->
  exists h1 w1 h2 w2,
    History.execute_command h c w = Ok (h1, w1) /\
    History.undo h1 w1 = Ok (h2, w2) /\
    status w2 (device cmd) = status w (device cmd) /\
    history h2 = history h /\
    redo_stack h2 = [c].
Proof.
  intros Hc Hd Hne. do 4 eexists. split.
  { unfold History.execute_command, bind.
    rewrite (execute_ok _ _ _ _ Hc Hd). reflexivity. }
  split.
  { unfold History.undo; simpl. rewrite pop_snoc. unfold bind.
    erewrite undo_truthy; simpl;
      [ reflexivity | apply lookup_insert_eq | reflexivity | exact Hne
      | apply lookup_insert_eq ]. }
  repeat split.
  rewrite status_with_state. unfold status. by rewrite Hd.
Qed.

End Commands.

(** ** The action history *)

Section ActionHistory.

Lemma execute_command_ok (w : World) (h : CommandHistory) (c : ref)
    (cmd : Command) (dev : Device) :
  commands w !! c = Some cmd ->
  devices w !! device cmd = Some dev ->
  History.execute_command h c w =
  Ok (mkHistory (history h ++ [c]) [],
      mkWorld
        (<[device cmd := mkDevice (name dev) (Cmd.target (cls cmd)) (observers dev)]>
           (devices w))
        (<[c := mkCommand (cls cmd) (device cmd) (Some (state dev))]> (commands w))
        (trace w ++ announce dev (Cmd.target (cls cmd)))).
Proof.
  intros Hc Hd. unfold History.execute_command, bind.
  by rewrite (execute_ok _ _ _ _ Hc Hd).
Qed.

Lemma redo_ok (w : World) (h : CommandHistory) (rest : list ref) (c : ref)
    (cmd : Command) (dev : Device) :
  redo_stack h = rest ++ [c] ->
  commands w !! c = Some cmd ->
  devices w !! device cmd = Some dev ->
  History.redo h w =
  Ok (mkHistory (history h ++ [c]) rest,
      mkWorld
        (<[device cmd := mkDevice (name dev) (Cmd.target (cls cmd)) (observers dev)]>
           (devices w))
        (<[c := mkCommand (cls cmd) (device cmd) (Some (state dev))]> (commands w))
        (trace w ++ announce dev (Cmd.target (cls cmd)))).
Proof.
  intros Hr Hc Hd. unfold History.redo, bind.
  rewrite Hr, pop_snoc. by rewrite (execute_ok _ _ _ _ Hc Hd).
Qed.

(** Whatever its [previous_state], undoing a command keeps the command's
    class and device, keeps every device in the store, and returns. *)
Lemma cmd_undo_total (w : World) (c : ref) (cmd : Command) (dev : Device) :
  commands w !! c = Some cmd ->
  devices w !! device cmd = Some dev ->
  exists w', Cmd.undo c w = Ok (tt, w') /\
    commands w' = commands w /\
    exists st, devices w' !! device cmd = Some (mkDevice (name dev) st (observers dev)).
Proof.
  intros Hc Hd. unfold Cmd.undo, bind, get_command. rewrite Hc.
  destruct (previous_state cmd) as [prev|].
  - destruct (truthy prev).
    + rewrite (set_state_ok _ _ dev) by done. eexists; split; [done|].
      split; [done|]. exists prev. simpl. apply lookup_insert_eq.
    + exists w. repeat split. exists (state dev). by destruct dev.
  - exists w. repeat split. exists (state dev). by destruct dev.
Qed.

(** C2: [execute_command] sets the device of the command to the state the
    command stands for, leaves the other devices alone, records the status
    the device had in the command, puts the command on top of the undo
    stack and leaves the redo stack empty, whatever was on it. *)
Theorem execute_command_spec (w : World) (h : CommandHistory) (c : ref)
    (cmd : Command) (dev : Device)
    (Hc : commands w !! c = Some cmd)
    (Hd : devices w !! device cmd = Some dev) :
  exists h' w',
    History.execute_command h c w = Ok (h', w') /\
    status w' (device cmd) = Some (Cmd.target (cls cmd)) /\
    (forall d, d ≠ device cmd -> devices w' !! d = devices w !! d) /\
    commands w' !! c = Some (mkCommand (cls cmd) (device cmd) (Some (state dev))) /\
    history h' = history h ++ [c] /\
    redo_stack h' = [].
Proof.
  eexists _, _. split; [by apply execute_command_ok|]. simpl.
  split; [unfold status; simpl; by rewrite lookup_insert_eq|].
  split; [intros d Hne; by rewrite lookup_insert_ne|].
  split; [apply lookup_insert_eq|]. done.
Qed.

Lemma execute_command_spec_witness :
  exists h' w',
    History.execute_command (mkHistory [turn_on] [turn_on; turn_off]) turn_off living_room
      = Ok (h', w') /\
    status w' light = Some "OFF" /\
    (forall d, d ≠ light -> devices w' !! d = devices living_room !! d) /\
    commands w' !! turn_off = Some (mkCommand TurnOffCommand light (Some "ON")) /\
    history h' = [turn_on; turn_off] /\
    redo_stack h' = [].
Proof.
  apply (execute_command_spec living_room (mkHistory [turn_on] [turn_on; turn_off])
           turn_off (mkCommand TurnOffCommand light None)
           (mkDevice "Living Room Light" "ON" [user_app]));
    reflexivity.
Defined.

(** C3: after [execute_command] and [undo], [redo] puts the device back in
    the status it had right after the execute, takes the command off the
    redo stack and puts it back on top of the undo stack (first part); so
    does every [redo] whose redo stack has a command on top, the status being
    the one every execute of that command leaves (second part); and [redo]
    with an empty redo stack changes neither the stacks nor the store,
    whatever they are (third part). *)
Theorem redo_spec (w : World) (h : CommandHistory) (c : ref)
    (cmd : Command) (dev : Device)
    (Hc : commands w !! c = Some cmd)
    (Hd : devices w !! device cmd = Some dev) :
  (exists h1 w1 h2 w2 h3 w3,
      History.execute_command h c w = Ok (h1, w1) /\
      History.undo h1 w1 = Ok (h2, w2) /\
      History.redo h2 w2 = Ok (h3, w3) /\
      status w1 (device cmd) = Some (Cmd.target (cls cmd)) /\
      status w3 (device cmd) = status w1 (device cmd) /\
      redo_stack h2 = [c] /\
      redo_stack h3 = [] /\
      history h3 = history h2 ++ [c]) /\
  (forall (h0 : CommandHistory) (rest : list ref),
      redo_stack h0 = rest ++ [c] ->
      exists h' w',
        History.redo h0 w = Ok (h', w') /\
        status w' (device cmd) = Some (Cmd.target (cls cmd)) /\
        redo_stack h' = rest /\
        history h' = history h0 ++ [c]) /\
  (forall (h0 : CommandHistory) (w0 : World),
      redo_stack h0 = [] -> History.redo h0 w0 = Ok (h0, w0)).
Proof.
  split; [|split].
  - do 2 eexists.
    destruct (cmd_undo_total
                (mkWorld
                   (<[device cmd := mkDevice (name dev) (Cmd.target (cls cmd))
                                      (observers dev)]> (devices w))
                   (<[c := mkCommand (cls cmd) (device cmd) (Some (state dev))]>
                      (commands w))
                   (trace w ++ announce dev (Cmd.target (cls cmd))))
                c (mkCommand (cls cmd) (device cmd) (Some (state dev)))
                (mkDevice (name dev) (Cmd.target (cls cmd)) (observers dev)))
      as (w2 & Hundo & Hcmds & st & Hdev); [apply lookup_insert_eq..|].
    simpl in *.
    exists (mkHistory (history h) [c]), w2. do 2 eexists.
    split; [by apply execute_command_ok|].
    split.
    { unfold History.undo; simpl. rewrite pop_snoc. unfold bind.
      by rewrite Hundo. }
    split.
    { eapply (redo_ok w2 _ [] c
                (mkCommand (cls cmd) (device cmd) (Some (state dev))));
        [reflexivity| |exact Hdev].
      rewrite Hcmds. apply lookup_insert_eq. }
    simpl. unfold status; simpl. by rewrite !lookup_insert_eq.
  - intros h0 rest Hr. do 2 eexists.
    split; [by apply (redo_ok w h0 rest c cmd dev)|].
    simpl. unfold status; simpl. by rewrite lookup_insert_eq.
  - intros h0 w0 Hr. unfold History.redo. by rewrite Hr.
Qed.

Lemma redo_spec_witness :
  exists h1 w1 h2 w2 h3 w3,
    History.execute_command History.new turn_off living_room = Ok (h1, w1) /\
    History.undo h1 w1 = Ok (h2, w2) /\
    History.redo h2 w2 = Ok (h3, w3) /\
    status w1 light = Some "OFF" /\
    status w3 light = status w1 light /\
    redo_stack h2 = [turn_off] /\
    redo_stack h3 = [] /\
    history h3 = history h2 ++ [turn_off].
Proof.
  apply (redo_spec living_room History.new turn_off
           (mkCommand TurnOffCommand light None)
           (mkDevice "Living Room Light" "ON" [user_app]));
    reflexivity.
Defined.

(** C5, as the code has it: [undo] on a history whose undo stack is empty
    returns normally and leaves the history and the whole store as they
    were: both stacks, every device, every command, and the trace, so that
    nothing is printed. *)
Theorem undo_empty_silent (w : World) (h : CommandHistory)
    (Hempty : history h = []) :
  History.undo h w = Ok (h, w) /\
  (forall h' w', History.undo h w = Ok (h', w') ->
     history h' = history h /\ redo_stack h' = redo_stack h /\
     devices w' = devices w /\ emitted w w' = []).
Proof.
  assert (History.undo h w = Ok (h, w)) as Hrun.
  { unfold History.undo. by rewrite Hempty. }
  split; [done|]. intros h' w'. rewrite Hrun. intros [= <- <-].
  repeat split. by apply emitted_same.
Qed.

Lemma undo_empty_silent_witness :
  History.undo (mkHistory [] [turn_off]) living_room
    = Ok (mkHistory [] [turn_off], living_room).
Proof.
  apply (undo_empty_silent living_room (mkHistory [] [turn_off])). reflexivity.
Defined.

(** C5 as the specification words it does not hold: [undo] on the empty
    undo stack of a new history prints no line at all, so no message that
    there is nothing to undo. *)
Lemma undo_empty_reports_nothing :
  ~ (forall (w : World) (h : CommandHistory),
       history h = [] ->
       exists h' w', History.undo h w = Ok (h', w') /\
                     exists line, Print line ∈ emitted w w').
Proof.
  intros Hreports.
  destruct (Hreports living_room History.new eq_refl) as (h' & w' & Hrun & line & Hin).
  injection Hrun as <- <-. by apply elem_of_nil in Hin.
Qed.

(** The scenario of the specification: ON after the execute, OFF after the
    undo, ON after the redo. *)
Example on_undo_redo_statuses :
  value_of (on_undo_redo empty_world) = Some ["ON"; "OFF"; "ON"].
Proof. reflexivity. Qed.

(** The Command section of the script: the undo turns the light back ON. *)
Example command_section_status :
  value_of (command_section living_room) = Some "ON".
Proof. reflexivity. Qed.

(** C1, where the code departs from it: a device whose status is the empty
    string is switched on through a history and the switch is undone; the
    status before the execute was the empty string, the status after the
    undo is still ON. *)
Theorem undo_skips_empty_status :
  value_of (undo_after_empty_status empty_world) = Some ("", "ON").
Proof. vm_compute. reflexivity. Qed.

(** *** The two stacks *)

(** What a call does to the stacks, whatever the store. *)
Lemma call_stacks (k : History.Call) (h h' : CommandHistory) (w w' : World) :
  History.call k h w = Ok (h', w') ->
  match k with
  | History.CallExecute c => h' = mkHistory (history h ++ [c]) []
  | History.CallUndo =>
      (history h = [] /\ h' = h) \/
      (exists rest c, history h = rest ++ [c] /\
                      h' = mkHistory rest (redo_stack h ++ [c]))
  | History.CallRedo =>
      (redo_stack h = [] /\ h' = h) \/
      (exists rest c, redo_stack h = rest ++ [c] /\
                      h' = mkHistory (history h ++ [c]) rest)
  end.
Proof.
  destruct k as [c| |]; simpl.
  - unfold History.execute_command, bind, ret.
    destruct (Cmd.execute c w) as [[[] w1]|e]; [|done]. by intros [= <- _].
  - unfold History.undo.
    destruct (pop (history h)) as [[rest c]|] eqn:Hpop.
    + apply pop_Some in Hpop. unfold bind, ret.
      destruct (Cmd.undo c w) as [[[] w1]|e]; [|done].
      intros [= <- _]. right. by exists rest, c.
    + apply pop_None in Hpop. intros [= <- _]. by left.
  - unfold History.redo.
    destruct (pop (redo_stack h)) as [[rest c]|] eqn:Hpop.
    + apply pop_Some in Hpop. unfold bind, ret.
      destruct (Cmd.execute c w) as [[[] w1]|e]; [|done].
      intros [= <- _]. right. by exists rest, c.
    + apply pop_None in Hpop. intros [= <- _]. by left.
Qed.

(** Every call returns when the references it follows lead somewhere, as
    they do in every Python state. *)
Lemma call_total (k : History.Call) (h : CommandHistory) (w : World) :
  wf_world w -> stacks_in_store w h ->
  (forall c, k = History.CallExecute c -> is_Some (commands w !! c)) ->
  exists h' w', History.call k h w = Ok (h', w').
Proof.
  intros Hwf Hstacks Hk. destruct k as [c| |]; simpl.
  - destruct (Hk c eq_refl) as [cmd Hc]. destruct (Hwf c cmd Hc) as [dev Hd].
    do 2 eexists. by apply (execute_command_ok w h c cmd dev).
  - unfold History.undo.
    destruct (pop (history h)) as [[rest c]|] eqn:Hpop; [|by do 2 eexists].
    apply pop_Some in Hpop.
    destruct (Hstacks c) as [cmd Hc]; [rewrite Hpop; set_solver|].
    destruct (Hwf c cmd Hc) as [dev Hd].
    destruct (cmd_undo_total w c cmd dev Hc Hd) as (w' & Hrun & _).
    unfold bind. rewrite Hrun. by do 2 eexists.
  - destruct (pop (redo_stack h)) as [[rest c]|] eqn:Hpop.
    + apply pop_Some in Hpop.
      destruct (Hstacks c) as [cmd Hc]; [rewrite Hpop; set_solver|].
      destruct (Hwf c cmd Hc) as [dev Hd].
      do 2 eexists. by apply (redo_ok w h rest c cmd dev).
    + do 2 eexists. unfold History.redo. by rewrite Hpop.
Qed.

(** A method of a command changes no reference: the store stays well
    formed and loses no command. *)
Lemma execute_keeps_store (w w' : World) (c : ref) :
  wf_world w -> Cmd.execute c w = Ok (tt, w') ->
  wf_world w' /\ (forall c0, is_Some (commands w !! c0) -> is_Some (commands w' !! c0)).
Proof.
  intros Hwf. unfold Cmd.execute, bind, get_command, get_device, put_command.
  destruct (commands w !! c) as [cmd|] eqn:Hc; [|done].
  destruct (devices w !! device cmd) as [dev|] eqn:Hd; [|done]. simpl.
  rewrite (set_state_ok _ _ dev) by done. intros [= <-]. split.
  - intros c0 cmd0. unfold with_state; simpl.
    rewrite lookup_insert. case_decide as Hcc.
    + intros [= <-]. simpl. by rewrite lookup_insert_eq.
    + intros Hc0. apply lookup_insert_is_Some'. right. by apply (Hwf c0).
  - intros c0 Hc0. unfold with_state; simpl. apply lookup_insert_is_Some'. by right.
Qed.

Lemma undo_keeps_store (w w' : World) (c : ref) :
  wf_world w -> Cmd.undo c w = Ok (tt, w') ->
  wf_world w' /\ (forall c0, is_Some (commands w !! c0) -> is_Some (commands w' !! c0)).
Proof.
  intros Hwf. unfold Cmd.undo, bind, get_command.
  destruct (commands w !! c) as [cmd|] eqn:Hc; [|done].
  destruct (previous_state cmd) as [prev|]; [|by intros [= <-]].
  destruct (truthy prev); [|by intros [= <-]].
  destruct (devices w !! device cmd) as [dev|] eqn:Hd;
    [|by rewrite set_state_raises].
  rewrite (set_state_ok _ _ dev) by done. intros [= <-]. split; [|done].
  intros c0 cmd0 Hc0. unfold with_state; simpl.
  apply lookup_insert_is_Some'. right. by apply (Hwf c0).
Qed.

Lemma call_keeps_store (k : History.Call) (h h' : CommandHistory) (w w' : World) :
  wf_world w -> stacks_in_store w h ->
  (forall c, k = History.CallExecute c -> is_Some (commands w !! c)) ->
  History.call k h w = Ok (h', w') ->
  wf_world w' /\ stacks_in_store w' h' /\
  (forall c0, is_Some (commands w !! c0) -> is_Some (commands w' !! c0)).
Proof.
  intros Hwf Hstacks Hk Hcall.
  assert (wf_world w' /\
          (forall c0, is_Some (commands w !! c0) -> is_Some (commands w' !! c0)))
    as [Hwf' Hkeep].
  { destruct k as [c| |]; simpl in Hcall.
    - unfold History.execute_command, bind, ret in Hcall.
      destruct (Cmd.execute c w) as [[[] w1]|e] eqn:Hrun; [|done].
      injection Hcall as _ <-. by apply (execute_keeps_store w w1 c).
    - unfold History.undo in Hcall.
      destruct (pop (history h)) as [[rest c]|]; [|by injection Hcall as _ <-].
      unfold bind, ret in Hcall.
      destruct (Cmd.undo c w) as [[[] w1]|e] eqn:Hrun; [|done].
      injection Hcall as _ <-. by apply (undo_keeps_store w w1 c).
    - unfold History.redo in Hcall.
      destruct (pop (redo_stack h)) as [[rest c]|]; [|by injection Hcall as _ <-].
      unfold bind, ret in Hcall.
      destruct (Cmd.execute c w) as [[[] w1]|e] eqn:Hrun; [|done].
      injection Hcall as _ <-. by apply (execute_keeps_store w w1 c). }
  split; [done|]. split; [|done].
  intros c0 Hin. apply Hkeep.
  apply call_stacks in Hcall. destruct k as [c| |].
  - subst h'; simpl in Hin. rewrite app_nil_r in Hin.
    apply elem_of_app in Hin as [Hin|Hin%list_elem_of_singleton].
    + apply Hstacks, elem_of_app. by left.
    + subst c0. by apply Hk.
  - destruct Hcall as [[_ ->]|(rest & c & Hh & ->)]; [by apply Hstacks|].
    apply Hstacks. rewrite Hh. simpl in Hin.
    rewrite !elem_of_app in Hin. rewrite !elem_of_app. tauto.
  - destruct Hcall as [[_ ->]|(rest & c & Hr & ->)]; [by apply Hstacks|].
    apply Hstacks. rewrite Hr. simpl in Hin.
    rewrite !elem_of_app in Hin. rewrite !elem_of_app. tauto.
Qed.

(** Every sequence of calls returns when it starts from a well-formed
    store and the commands it executes are objects of that store. *)
Lemma calls_total (ks : list History.Call) (h : CommandHistory) (w : World) :
  wf_world w -> stacks_in_store w h ->
  (forall c, History.CallExecute c ∈ ks -> is_Some (commands w !! c)) ->
  exists h' w', History.calls ks h w = Ok (h', w').
Proof.
  revert h w. induction ks as [|k ks IH]; intros h w Hwf Hstacks Hks; simpl.
  - by do 2 eexists.
  - assert (forall c, k = History.CallExecute c -> is_Some (commands w !! c)) as Hk.
    { intros c ->. apply Hks. by left. }
    destruct (call_total k h w Hwf Hstacks Hk) as (h1 & w1 & Hcall).
    unfold bind. rewrite Hcall.
    destruct (call_keeps_store k h h1 w w1 Hwf Hstacks Hk Hcall)
      as (Hwf1 & Hstacks1 & Hkeep).
    apply IH; [done..|].
    intros c Hin. apply Hkeep, Hks. by right.
Qed.

(** C4, as the code has it: as long as [execute_command] is never given a
    command object that is still on the undo stack, every history reached
    from a new one by [execute_command], [undo] and [redo] holds each
    command object at most once across its two stacks, and so the stacks
    have no object in common. *)
Theorem stacks_disjoint (h : CommandHistory)
    (Hreach : History.reachable History.not_pending h) :
  NoDup (history h ++ redo_stack h) /\
  (forall c, c ∈ history h -> c ∉ redo_stack h).
Proof.
  assert (NoDup (history h ++ redo_stack h)) as Hnodup.
  { induction Hreach as [|h k w h' w' _ IH Hallowed Hcall]; [constructor|].
    apply call_stacks in Hcall. destruct k as [c| |]; simpl in *.
    - subst h'; simpl. rewrite app_nil_r.
      apply NoDup_app in IH as (Hh & _ & _).
      apply NoDup_app. split; [done|]. split; [|apply NoDup_singleton].
      intros x Hx Hxc. apply list_elem_of_singleton in Hxc. by subst x.
    - destruct Hcall as [[_ ->]|(rest & c & Hh & ->)]; [done|]. simpl.
      rewrite Hh in IH. rewrite <- app_assoc in IH.
      by rewrite (Permutation_app_comm (redo_stack h) [c]).
    - destruct Hcall as [[_ ->]|(rest & c & Hr & ->)]; [done|]. simpl.
      rewrite Hr in IH. rewrite <- app_assoc.
      by rewrite (Permutation_app_comm [c] rest). }
  split; [done|].
  apply NoDup_app in Hnodup as (_ & Hdisj & _). exact Hdisj.
Qed.

(** Two commands executed and the second undone: one on each stack. *)
Lemma one_on_each_stack :
  History.reachable History.not_pending (mkHistory [turn_off] [turn_on]).
Proof.
  eapply (History.reach_call _ (mkHistory [turn_off; turn_on] []) History.CallUndo
            living_room); [|exact I|reflexivity].
  eapply (History.reach_call _ (mkHistory [turn_off] []) (History.CallExecute turn_on)
            living_room); [| |reflexivity].
  - eapply (History.reach_call _ History.new (History.CallExecute turn_off)
              living_room); [apply History.reach_new| |reflexivity].
    simpl. apply not_elem_of_nil.
  - simpl. intros Hin. apply list_elem_of_singleton in Hin. discriminate Hin.
Defined.

Lemma stacks_disjoint_witness :
  NoDup ([turn_off] ++ [turn_on]) /\
  (forall c, c ∈ [turn_off] -> c ∉ [turn_on]).
Proof.
  exact (stacks_disjoint (mkHistory [turn_off] [turn_on]) one_on_each_stack).
Defined.

(** A sequence of calls that returns ends in a reachable history. *)
Lemma calls_reachable (ks : list History.Call) (h h' : CommandHistory) (w w' : World) :
  History.reachable History.any_call h ->
  History.calls ks h w = Ok (h', w') ->
  History.reachable History.any_call h'.
Proof.
  revert h w. induction ks as [|k ks IH]; intros h w Hreach; simpl.
  - by intros [= <- _].
  - unfold bind. destruct (History.call k h w) as [[h1 w1]|e] eqn:Hcall; [|done].
    apply IH. by eapply History.reach_call.
Qed.

(** C4 as the specification words it does not hold: the same command
    object is given to [execute_command] twice and one of the two is undone;
    the object is then on both stacks. *)
Lemma same_command_on_both_stacks :
  value_of (History.calls [History.CallExecute turn_off;
                           History.CallExecute turn_off;
                           History.CallUndo] History.new living_room)
    = Some (mkHistory [turn_off] [turn_off]) /\
  History.reachable History.any_call (mkHistory [turn_off] [turn_off]) /\
  ~ NoDup (history (mkHistory [turn_off] [turn_off])
           ++ redo_stack (mkHistory [turn_off] [turn_off])) /\
  turn_off ∈ history (mkHistory [turn_off] [turn_off]) /\
  turn_off ∈ redo_stack (mkHistory [turn_off] [turn_off]).
Proof.
  split; [reflexivity|]. split.
  { destruct (History.calls [History.CallExecute turn_off;
                             History.CallExecute turn_off;
                             History.CallUndo] History.new living_room)
      as [[h w]|e] eqn:Hrun; [|discriminate (f_equal value_of Hrun)].
    assert (h = mkHistory [turn_off] [turn_off]) as <-.
    { apply (f_equal value_of) in Hrun. vm_compute in Hrun. by injection Hrun. }
    eapply calls_reachable; [apply History.reach_new|exact Hrun]. }
  simpl. split.
  - intros Hnodup. apply NoDup_cons in Hnodup as [Hnotin _].
    apply Hnotin, list_elem_of_singleton. reflexivity.
  - split; apply list_elem_of_singleton; reflexivity.
Qed.

End ActionHistory.

(** ** Devices and their listeners *)

Section Listeners.

(** [add_observer] keeps the listeners free of duplicates and puts a new
    listener last. *)
Lemma add_observer_ok (w : World) (d : ref) (dev : Device) (obs : Observer) :
  devices w !! d = Some dev ->
  NoDup (observers dev) ->
  exists w' dev',
    add_observer d obs w = Ok (tt, w') /\
    devices w' !! d = Some dev' /\
    NoDup (observers dev') /\
    observers dev' = (if bool_decide (obs ∈ observers dev)
                      then observers dev else observers dev ++ [obs]).
Proof.
  intros Hd Hnodup. unfold add_observer, bind, get_device. rewrite Hd.
  case_bool_decide as Hin.
  - exists w, dev. by repeat split.
  - do 2 eexists. split; [reflexivity|]. simpl.
    split; [apply lookup_insert_eq|]. simpl. split; [|done].
    apply NoDup_app. split; [done|]. split; [|apply NoDup_singleton].
    intros x Hx Hxo. apply list_elem_of_singleton in Hxo. by subst x.
Qed.

Lemma list_remove_subset (obs o : Observer) (l : list Observer) :
  o ∈ list_remove obs l -> o ∈ l.
Proof.
  induction l as [|x l IH]; simpl; [done|].
  case_decide.
  - intros Hin. by apply elem_of_cons; right.
  - intros [->|Hin]%elem_of_cons; apply elem_of_cons; [by left|right; by apply IH].
Qed.

Lemma list_remove_NoDup (obs : Observer) (l : list Observer) :
  NoDup l -> NoDup (list_remove obs l).
Proof.
  induction 1 as [|x l Hx Hl IH]; simpl; [constructor|].
  case_decide; [done|]. constructor; [|done].
  intros Hin. by apply Hx, (list_remove_subset obs).
Qed.

Lemma remove_observer_ok (w : World) (d : ref) (dev : Device) (obs : Observer) :
  devices w !! d = Some dev ->
  NoDup (observers dev) ->
  exists w' dev',
    remove_observer d obs w = Ok (tt, w') /\
    devices w' !! d = Some dev' /\
    NoDup (observers dev') /\
    obs ∉ observers dev'.
Proof.
  intros Hd Hnodup. unfold remove_observer, bind, get_device. rewrite Hd.
  case_bool_decide as Hin.
  - do 2 eexists. split; [reflexivity|]. simpl.
    split; [apply lookup_insert_eq|]. simpl.
    split; [by apply list_remove_NoDup|].
    clear Hd. induction Hnodup as [|x l Hx Hl IH]; simpl; [apply not_elem_of_nil|].
    case_decide as Hxo; [by subst x|].
    apply not_elem_of_cons. split; [done|]. apply IH.
    apply elem_of_cons in Hin as [->|Hin]; done.
  - exists w, dev. by repeat split.
Qed.

(** C6: [set_state] sets the status; when the new status is not the old one
    it calls [update] on every registered listener, once each and in the
    order of registration, with one message in which the device name and the
    new status both occur; when the new status is the old one it calls
    nobody and prints nothing.  The listeners of a device are free of
    duplicates, as [add_observer] keeps them. *)
Theorem set_state_spec (w : World) (d : ref) (dev : Device) (new_status : string)
    (Hd : devices w !! d = Some dev)
    (Hreg : NoDup (observers dev)) :
  exists w',
    set_state d new_status w = Ok (tt, w') /\
    status w' d = Some new_status /\
    (state dev ≠ new_status ->
       let msg := state_msg (name dev) new_status in
       updates (emitted w w') = map (fun o => Update o msg) (observers dev) /\
       receivers (emitted w w') = observers dev /\
       (forall o, o ∈ observers dev ->
                  count_occ Observer_eq_dec (receivers (emitted w w')) o = 1) /\
       (forall o, o ∉ observers dev ->
                  count_occ Observer_eq_dec (receivers (emitted w w')) o = 0) /\
       str_in (name dev) msg = true /\
       str_in new_status msg = true) /\
    (state dev = new_status -> emitted w w' = []).
Proof.
  exists (with_state w d dev new_status).
  split; [by apply set_state_ok|].
  split; [apply status_with_state|].
  assert (emitted w (with_state w d dev new_status) = announce dev new_status) as ->.
  { by apply emitted_app. }
  unfold announce. split.
  - intros Hne. rewrite bool_decide_eq_true_2 by done. simpl.
    rewrite receivers_notifications, updates_notifications.
    split; [done|]. split; [done|].
    split.
    { intros o Ho.
      apply (proj1 (NoDup_count_occ' Observer_eq_dec (observers dev))
               (proj1 (NoDup_ListNoDup _) Hreg)).
      by apply list_elem_of_In. }
    split.
    { intros o Ho. apply count_occ_not_In. by rewrite <- list_elem_of_In. }
    split; [apply state_msg_has_name | apply state_msg_has_state].
  - intros Heq. rewrite bool_decide_eq_false_2; [done|].
    intros Hne. by apply Hne.
Qed.

Lemma set_state_spec_witness :
  exists w',
    set_state light "OFF" living_room = Ok (tt, w') /\
    status w' light = Some "OFF" /\
    updates (emitted living_room w')
      = [Update user_app "Living Room Light -> OFF"] /\
    receivers (emitted living_room w') = [user_app].
Proof.
  destruct (set_state_spec living_room light
              (mkDevice "Living Room Light" "ON" [user_app]) "OFF")
    as (w' & Hrun & Hst & Hchanged & _).
  - reflexivity.
  - apply NoDup_singleton.
  - exists w'. split; [exact Hrun|]. split; [exact Hst|].
    destruct Hchanged as (Hupd & Hrcv & _); [discriminate|].
    split; [exact Hupd | exact Hrcv].
Defined.

(** C10: a new device is OFF with no listener, and it is a new object;
    setting it OFF right away calls nobody, prints nothing, and leaves it
    OFF. *)
Theorem new_device_spec (w : World) (nm : string) :
  exists d w1,
    new_device nm w = Ok (d, w1) /\
    devices w !! d = None /\
    devices w1 !! d = Some (mkDevice nm "OFF" []) /\
    exists w2,
      set_state d "OFF" w1 = Ok (tt, w2) /\
      emitted w1 w2 = [] /\
      receivers (emitted w1 w2) = [] /\
      status w2 d = Some "OFF".
Proof.
  do 2 eexists. split; [reflexivity|].
  split; [apply not_elem_of_dom, is_fresh|]. simpl.
  split; [apply lookup_insert_eq|].
  eexists. split.
  { apply (set_state_ok _ _ (mkDevice nm "OFF" [])). simpl. apply lookup_insert_eq. }
  assert (emitted
            (mkWorld (<[fresh (dom (devices w)) := mkDevice nm "OFF" []]> (devices w))
                     (commands w) (trace w))
            (with_state
               (mkWorld (<[fresh (dom (devices w)) := mkDevice nm "OFF" []]> (devices w))
                        (commands w) (trace w))
               (fresh (dom (devices w))) (mkDevice nm "OFF" []) "OFF") = []) as ->.
  { apply emitted_app. simpl. reflexivity. }
  split; [done|]. split; [done|]. apply status_with_state.
Qed.

End Listeners.

(** ** The alert chain *)

Section AlertChain.

Lemma AlertHandler_ind (P : AlertHandler -> Prop) :
  (forall k, P (Handler k None)) ->
  (forall k next, P next -> P (Handler k (Some next))) ->
  forall h, P h.
Proof.
  intros Hlast Hnext. fix IH 1.
  intros [k [next|]]; [apply Hnext, IH | apply Hlast].
Qed.

Lemma handle_alert_run (h : AlertHandler) (alert_level message : string) (w : World) :
  handle_alert h alert_level message w =
  Ok (tt, mkWorld (devices w) (commands w)
                  (trace w ++ alert_trace (chain h) alert_level message)).
Proof.
  revert w. induction h as [k|k next IH] using AlertHandler_ind; intros w;
    simpl; unfold bind, emit; simpl; case_bool_decide; simpl.
  - by rewrite <- app_assoc.
  - done.
  - by rewrite <- app_assoc.
  - rewrite IH; simpl. by rewrite <- app_assoc.
Qed.

(** No handler before the first match prints; the match prints one line. *)
Lemma alert_trace_match (pre post : list HandlerKind) (k : HandlerKind)
    (alert_level message : string) :
  (forall k', k' ∈ pre -> alert_level ≠ level k') ->
  alert_level = level k ->
  alert_trace (pre ++ k :: post) alert_level message =
  map (fun k' => HandleAlert k' alert_level message) (pre ++ [k])
  ++ [Print (alert_line k message)].
Proof.
  intros Hpre Hk. induction pre as [|k0 pre IH]; simpl.
  - by rewrite bool_decide_eq_true_2.
  - rewrite bool_decide_eq_false_2 by (apply Hpre; by left).
    rewrite IH; [done|]. intros k' Hin. apply Hpre. by right.
Qed.

Lemma alert_trace_no_match (ks : list HandlerKind) (alert_level message : string) :
  (forall k, k ∈ ks -> alert_level ≠ level k) ->
  alert_trace ks alert_level message =
  map (fun k => HandleAlert k alert_level message) ks.
Proof.
  intros Hks. induction ks as [|k ks IH]; simpl; [done|].
  rewrite bool_decide_eq_false_2 by (apply Hks; by left).
  rewrite IH; [done|]. intros k' Hin. apply Hks. by right.
Qed.

Lemma printed_entries (ks : list HandlerKind) (alert_level message : string) :
  printed (map (fun k => HandleAlert k alert_level message) ks) = [].
Proof. by induction ks. Qed.

Lemma entered_entries (ks : list HandlerKind) (alert_level message : string) :
  handlers_entered (map (fun k => HandleAlert k alert_level message) ks) = ks.
Proof. induction ks as [|k ks IH]; simpl; [done|]. by f_equal. Qed.

(** C7: a dispatch always returns and touches no device and no command.
    When the chain is [pre], then a handler [k] of the alert's level, then
    [post], and no handler of [pre] has that level, the handlers entered are
    those of [pre] and then [k], none of [post]; the handlers of [pre] print
    nothing and [k] prints its one line.  When no handler of the chain has
    the alert's level, every handler is entered, nothing is printed and no
    error is raised. *)
Theorem handle_alert_spec (h : AlertHandler) (alert_level message : string) (w : World) :
  exists w',
    handle_alert h alert_level message w = Ok (tt, w') /\
    devices w' = devices w /\
    commands w' = commands w /\
    (forall pre k post,
        chain h = pre ++ k :: post ->
        (forall k', k' ∈ pre -> alert_level ≠ level k') ->
        alert_level = level k ->
        emitted w w' =
          map (fun k' => HandleAlert k' alert_level message) (pre ++ [k])
          ++ [Print (alert_line k message)] /\
        handlers_entered (emitted w w') = pre ++ [k] /\
        printed (emitted w w') = [Print (alert_line k message)]) /\
    ((forall k, k ∈ chain h -> alert_level ≠ level k) ->
        emitted w w' = map (fun k => HandleAlert k alert_level message) (chain h) /\
        handlers_entered (emitted w w') = chain h /\
        printed (emitted w w') = []).
Proof.
  eexists. split; [apply handle_alert_run|]. simpl.
  split; [done|]. split; [done|].
  assert (emitted w
            (mkWorld (devices w) (commands w)
                     (trace w ++ alert_trace (chain h) alert_level message))
          = alert_trace (chain h) alert_level message) as ->.
  { by apply emitted_app. }
  split.
  - intros pre k post -> Hpre Hk.
    rewrite (alert_trace_match pre post k alert_level message Hpre Hk).
    split; [done|]. split.
    + unfold handlers_entered. rewrite omap_app.
      fold (handlers_entered (map (fun k' => HandleAlert k' alert_level message)
                                  (pre ++ [k]))).
      rewrite entered_entries. simpl. by rewrite app_nil_r.
    + unfold printed. rewrite List.filter_app.
      fold (printed (map (fun k' => HandleAlert k' alert_level message) (pre ++ [k]))).
      by rewrite printed_entries.
  - intros Hnone. rewrite (alert_trace_no_match _ _ _ Hnone).
    split; [done|]. split; [apply entered_entries | apply printed_entries].
Qed.

Lemma handle_alert_spec_witness :
  exists w',
    handle_alert motion_handler "police" "Emergency situation" empty_world
      = Ok (tt, w') /\
    emitted empty_world w' =
      [HandleAlert MotionHandler "police" "Emergency situation";
       HandleAlert AlarmHandler "police" "Emergency situation";
       HandleAlert PoliceHandler "police" "Emergency situation";
       Print "Police notified! Emergency situation"] /\
    (exists w'',
        handle_alert motion_handler "unknown" "Test message" empty_world
          = Ok (tt, w'') /\
        printed (emitted empty_world w'') = []).
Proof.
  destruct (handle_alert_spec motion_handler "police" "Emergency situation" empty_world)
    as (w' & Hrun & _ & _ & Hmatch & _).
  destruct (handle_alert_spec motion_handler "unknown" "Test message" empty_world)
    as (w'' & Hrun' & _ & _ & _ & Hnone).
  exists w'. split; [exact Hrun|]. split.
  - apply (Hmatch [MotionHandler; AlarmHandler] PoliceHandler []); [reflexivity| |reflexivity].
    intros k' Hin.
    apply elem_of_cons in Hin as [->|Hin]; [discriminate|].
    apply list_elem_of_singleton in Hin as ->. discriminate.
  - exists w''. split; [exact Hrun'|]. apply Hnone.
    intros k Hin. simpl in Hin.
    apply elem_of_cons in Hin as [->|Hin]; [discriminate|].
    apply elem_of_cons in Hin as [->|Hin]; [discriminate|].
    apply list_elem_of_singleton in Hin as ->. discriminate.
Defined.

End AlertChain.

(** ** The caretaker *)

Section Memento.

Lemma py_index_last {A} (l : list A) : l ≠ [] -> py_index l (-1) = last l.
Proof.
  intros Hne. unfold py_index.
  destruct l as [|x l]; [done|].
  replace (0 <=? -1)%Z with false by done.
  rewrite (proj2 (Z.leb_le _ _)) by (simpl length; lia).
  rewrite last_lookup. f_equal. simpl length. lia.
Qed.

Lemma py_index_nil {A} (i : Z) : py_index (@nil A) i = None.
Proof. unfold py_index. repeat case_match; done. Qed.

(** An index finds an element exactly when it is in range. *)
Lemma py_index_in_range {A} (l : list A) (i : Z) :
  is_Some (py_index l i) <-> (- Z.of_nat (length l) <= i < Z.of_nat (length l))%Z.
Proof.
  unfold py_index.
  destruct (0 <=? i)%Z eqn:H0; [destruct (i <? Z.of_nat (length l))%Z eqn:H1|
                                destruct (- Z.of_nat (length l) <=? i)%Z eqn:H2].
  - rewrite lookup_lt_is_Some. lia.
  - split; [by intros [? ?]|lia].
  - rewrite lookup_lt_is_Some. lia.
  - split; [by intros [? ?]|lia].
Qed.

(** What [restore_state] does once the index has found a memento. *)
Lemma restore_state_found (w : World) (ct : DeviceCaretaker) (dev : Device)
    (index : Z) (memento : DeviceMemento) :
  devices w !! caretaker_device ct = Some dev ->
  py_index (saved_states ct) index = Some memento ->
  Caretaker.restore_state ct index w =
  Ok (tt, mkWorld
            (<[caretaker_device ct :=
                 mkDevice (name dev) (memento_state memento) (observers dev)]> (devices w))
            (commands w)
            (trace w ++ [Print ("Config restored -> " +:+ memento_state memento)])).
Proof.
  intros Hd Hidx. unfold Caretaker.restore_state.
  destruct (saved_states ct) as [|m l] eqn:Hs.
  - by rewrite py_index_nil in Hidx.
  - rewrite Hidx. unfold bind, get_device. by rewrite Hd.
Qed.

(** C8: with at least one saved state, [restore_state()] returns, writes
    the status of the last memento into the device, whatever the status of
    the device was, keeps its name and listeners, prints its one line, and
    calls [update] on no listener (first part).  With an explicit index it
    does the same for the memento at that index, or raises [IndexError]
    and changes nothing when the index is out of range; in neither case is
    a listener called (second part). *)
Theorem restore_state_notifies_nobody (w : World) (ct : DeviceCaretaker) (dev : Device)
    (Hsaved : saved_states ct ≠ [])
    (Hd : devices w !! caretaker_device ct = Some dev) :
  (exists memento w',
      last (saved_states ct) = Some memento /\
      Caretaker.restore_last ct w = Ok (tt, w') /\
      devices w' !! caretaker_device ct
        = Some (mkDevice (name dev) (memento_state memento) (observers dev)) /\
      emitted w w' = [Print ("Config restored -> " +:+ memento_state memento)] /\
      receivers (emitted w w') = []) /\
  (forall index : Z,
      match Caretaker.restore_state ct index w with
      | Ok (_, w') =>
          exists memento,
            py_index (saved_states ct) index = Some memento /\
            devices w' !! caretaker_device ct
              = Some (mkDevice (name dev) (memento_state memento) (observers dev)) /\
            receivers (emitted w w') = []
      | Raise e => e = IndexError /\ py_index (saved_states ct) index = None
      end).
Proof.
  split.
  - destruct (last (saved_states ct)) as [memento|] eqn:Hlast.
    + exists memento. eexists. split; [done|].
      split.
      { apply (restore_state_found w ct dev); [done|].
        by rewrite py_index_last. }
      simpl. split; [apply lookup_insert_eq|].
      erewrite emitted_app by (simpl; reflexivity). done.
    + by apply last_None in Hlast.
  - intros index.
    destruct (py_index (saved_states ct) index) as [memento|] eqn:Hidx.
    + rewrite (restore_state_found w ct dev index memento Hd Hidx).
      exists memento. split; [done|]. simpl.
      split; [apply lookup_insert_eq|].
      erewrite emitted_app by (simpl; reflexivity). done.
    + unfold Caretaker.restore_state. rewrite Hidx.
      destruct (saved_states ct); done.
Qed.

Lemma restore_state_notifies_nobody_witness :
  exists memento w',
    last (saved_states caretaker) = Some memento /\
    Caretaker.restore_last caretaker living_room = Ok (tt, w') /\
    devices w' !! light
      = Some (mkDevice "Living Room Light" (memento_state memento) [user_app]) /\
    emitted living_room w' = [Print ("Config restored -> " +:+ memento_state memento)] /\
    receivers (emitted living_room w') = [].
Proof.
  apply (restore_state_notifies_nobody living_room caretaker
           (mkDevice "Living Room Light" "ON" [user_app])).
  - discriminate.
  - reflexivity.
Defined.

End Memento.

(** ** The interpreter *)

Section Interpreter.

(** The status a toggle gives a device that is [dev]. *)
Lemma toggled_ON_OFF (dev : Device) :
  (state dev = "ON" -> (if bool_decide (state dev = "ON") then "OFF" else "ON") = "OFF") /\
  (state dev ≠ "ON" -> (if bool_decide (state dev = "ON") then "OFF" else "ON") = "ON").
Proof.
  split; intros Hst.
  - by rewrite bool_decide_eq_true_2.
  - by rewrite bool_decide_eq_false_2.
Qed.

(** The third branch of [interpret], in full. *)
Lemma interpret_toggle_run (w : World) (d : ref) (dev : Device) (command_text : string) :
  devices w !! d = Some dev ->
  str_in "toggle" (strip (lower command_text)) = true ->
  str_in "turn on" (strip (lower command_text)) = false ->
  str_in "switch on" (strip (lower command_text)) = false ->
  str_in "turn off" (strip (lower command_text)) = false ->
  str_in "switch off" (strip (lower command_text)) = false ->
  let new_state := if bool_decide (state dev = "ON") then "OFF" else "ON" in
  interpret command_text d w =
  Ok ("Toggling " +:+ name dev +:+ " to " +:+ new_state, with_state w d dev new_state).
Proof.
  intros Hd Htoggle Hturn_on Hswitch_on Hturn_off Hswitch_off. unfold interpret.
  rewrite Htoggle, Hturn_on, Hswitch_on, Hturn_off, Hswitch_off. simpl.
  unfold bind at 1. unfold get_device at 1. rewrite Hd.
  unfold bind at 1. rewrite (set_state_ok _ _ dev) by done.
  unfold bind, get_device; simpl. by rewrite lookup_insert_eq.
Qed.

(** C9: when the text the interpreter tests, which is the command text in
    lower case without the white space around it, has [toggle] in it and
    none of [turn on], [switch on], [turn off], [switch off], the device
    goes OFF when its status is exactly ON and goes ON from every other
    status. *)
Theorem interpret_toggle (w : World) (d : ref) (dev : Device) (command_text : string)
    (Hd : devices w !! d = Some dev)
    (Htoggle : str_in "toggle" (strip (lower command_text)) = true)
    (Hturn_on : str_in "turn on" (strip (lower command_text)) = false)
    (Hswitch_on : str_in "switch on" (strip (lower command_text)) = false)
    (Hturn_off : str_in "turn off" (strip (lower command_text)) = false)
    (Hswitch_off : str_in "switch off" (strip (lower command_text)) = false) :
  exists reply w',
    interpret command_text d w = Ok (reply, w') /\
    (state dev = "ON" -> status w' d = Some "OFF") /\
    (state dev ≠ "ON" -> status w' d = Some "ON").
Proof.
  do 2 eexists. split; [by apply (interpret_toggle_run w d dev)|].
  rewrite status_with_state.
  destruct (toggled_ON_OFF dev) as [Hon Hother].
  split; intros Hst; f_equal; auto.
Qed.

Lemma interpret_toggle_witness :
  exists reply w',
    interpret "Toggle light " light living_room = Ok (reply, w') /\
    status w' light = Some "OFF".
Proof.
  destruct (interpret_toggle living_room light
              (mkDevice "Living Room Light" "ON" [user_app]) "Toggle light ")
    as (reply & w' & Hrun & Hon & _); try reflexivity.
  exists reply, w'. split; [exact Hrun|]. apply Hon. reflexivity.
Defined.

(** The same read on the command text as it is written: [toggle] occurs in
    it, and none of the four keywords occurs in it in any mix of upper and
    lower case. *)
Lemma interpret_toggle_as_written (w : World) (d : ref) (dev : Device)
    (command_text : string) :
  devices w !! d = Some dev ->
  str_in "toggle" command_text = true ->
  str_in "turn on" (lower command_text) = false ->
  str_in "switch on" (lower command_text) = false ->
  str_in "turn off" (lower command_text) = false ->
  str_in "switch off" (lower command_text) = false ->
  exists reply w',
    interpret command_text d w = Ok (reply, w') /\
    (state dev = "ON" -> status w' d = Some "OFF") /\
    (state dev ≠ "ON" -> status w' d = Some "ON").
Proof.
  intros Hd Htoggle Hturn_on Hswitch_on Hturn_off Hswitch_off.
  assert (forall kw, str_in kw (lower command_text) = false ->
                     str_in kw (strip (lower command_text)) = false) as Hkw.
  { intros kw Hno. destruct (str_in kw (strip (lower command_text))) eqn:Hin; [|done].
    apply str_in_strip_inv in Hin. congruence. }
  do 2 eexists. split.
  { apply (interpret_toggle_run w d dev); auto.
    apply (str_in_strip "toggle" _ "t" "oggle"); [done..|].
    by apply (str_in_lower "toggle"). }
  rewrite status_with_state.
  destruct (toggled_ON_OFF dev) as [Hon Hother].
  split; intros Hst; f_equal; auto.
Qed.

(** Upper case in a keyword counts: the text below has [toggle] in it and
    [turn on] only in capitals, and it switches the light on, not over. *)
Example interpret_capitals :
  value_of (interpret "toggle, do not TURN ON" light living_room)
  = Some "Turning Living Room Light ON".
Proof. reflexivity. Qed.

End Interpreter.

(** ** More on listeners *)

Section Registration.

Lemma receivers_announce (dev : Device) (st : string) :
  receivers (announce dev st) =
  if bool_decide (state dev ≠ st) then observers dev else [].
Proof.
  unfold announce. case_bool_decide; [apply receivers_notifications | done].
Qed.

Lemma list_remove_snoc (obs : Observer) (l : list Observer) :
  obs ∉ l -> list_remove obs (l ++ [obs]) = l.
Proof.
  induction l as [|x l IH]; simpl; intros Hnotin.
  - by rewrite decide_True.
  - apply not_elem_of_cons in Hnotin as [Hne Hnotin].
    rewrite decide_False by done. by rewrite IH.
Qed.

Lemma list_remove_elem_of (obs o : Observer) (l : list Observer) :
  NoDup l -> o ∈ list_remove obs l <-> o ∈ l /\ o ≠ obs.
Proof.
  induction 1 as [|x l Hx Hl IH]; simpl.
  - split; [by intros ?%elem_of_nil | by intros [?%elem_of_nil _]].
  - case_decide as Hxo.
    + subst x. split.
      * intros Hin. split; [by apply elem_of_cons; right|]. by intros ->.
      * intros [[->|Hin]%elem_of_cons Hne]; done.
    + rewrite !elem_of_cons, IH. split.
      * intros [->|[Hin Hne]]; [by split; [left|] | by split; [right|]].
      * intros [[->|Hin] Hne]; [by left | by right].
Qed.

Lemma list_remove_not_elem_of (obs : Observer) (l : list Observer) :
  obs ∉ l -> list_remove obs l = l.
Proof.
  induction l as [|x l IH]; simpl; [done|]. intros Hnotin.
  apply not_elem_of_cons in Hnotin as [Hne Hnotin].
  rewrite decide_False by done. by rewrite IH.
Qed.

(** X1: [add_observer] is idempotent.  It returns with the listener
    registered and the name and status of the device as they were; a second
    call with the same listener changes nothing at all; a call with a
    listener that is registered already changes nothing either; and no
    call prints or notifies. *)
Theorem add_observer_idempotent (w : World) (d : ref) (dev : Device) (obs : Observer)
    (Hd : devices w !! d = Some dev) :
  exists w1 dev1,
    add_observer d obs w = Ok (tt, w1) /\
    add_observer d obs w1 = Ok (tt, w1) /\
    devices w1 !! d = Some dev1 /\
    obs ∈ observers dev1 /\
    name dev1 = name dev /\ state dev1 = state dev /\
    (obs ∈ observers dev -> w1 = w) /\
    trace w1 = trace w.
Proof.
  unfold add_observer, bind, get_device. rewrite Hd.
  case_bool_decide as Hin.
  - exists w, dev. rewrite Hd. rewrite bool_decide_eq_true_2 by done.
    by repeat split.
  - do 2 eexists. split; [reflexivity|]. simpl.
    rewrite lookup_insert_eq. simpl.
    rewrite bool_decide_eq_true_2 by (apply elem_of_app; right; by left).
    split; [done|]. split; [done|].
    split; [apply elem_of_app; right; by left|]. by repeat split.
Qed.

Lemma add_observer_idempotent_witness :
  exists w1 dev1,
    add_observer light (UserApp 7) living_room = Ok (tt, w1) /\
    add_observer light (UserApp 7) w1 = Ok (tt, w1) /\
    devices w1 !! light = Some dev1 /\
    UserApp 7 ∈ observers dev1 /\
    name dev1 = "Living Room Light" /\ state dev1 = "ON" /\
    (UserApp 7 ∈ [user_app] -> w1 = living_room) /\
    trace w1 = trace living_room.
Proof.
  apply (add_observer_idempotent living_room light
           (mkDevice "Living Room Light" "ON" [user_app]) (UserApp 7)).
  reflexivity.
Defined.

(** X2: registering a listener that was not registered and removing it
    again gives back the store as it was, the order of the other listeners
    included. *)
Theorem add_then_remove_observer (w : World) (d : ref) (dev : Device) (obs : Observer)
    (Hd : devices w !! d = Some dev)
    (Hnew : obs ∉ observers dev) :
  exists w1,
    add_observer d obs w = Ok (tt, w1) /\
    remove_observer d obs w1 = Ok (tt, w).
Proof.
  unfold add_observer, remove_observer, bind, get_device. rewrite Hd.
  rewrite bool_decide_eq_false_2 by done.
  eexists. split; [reflexivity|]. simpl.
  rewrite lookup_insert_eq. simpl.
  rewrite bool_decide_eq_true_2 by (apply elem_of_app; right; by left).
  rewrite list_remove_snoc by done.
  unfold put_device; simpl. rewrite insert_insert_eq.
  destruct w as [devs cmds t], dev as [nm st obss]; simpl in *.
  by rewrite insert_id.
Qed.

Lemma add_then_remove_observer_witness :
  exists w1,
    add_observer light (UserApp 7) living_room = Ok (tt, w1) /\
    remove_observer light (UserApp 7) w1 = Ok (tt, living_room).
Proof.
  apply (add_then_remove_observer living_room light
           (mkDevice "Living Room Light" "ON" [user_app]) (UserApp 7)).
  - reflexivity.
  - intros Hin. apply list_elem_of_singleton in Hin. discriminate Hin.
Defined.

(** X3: a listener that has been removed is not called by the next
    [set_state], and every other listener of the device still is when the
    status changes, in the order they had. *)
Theorem removed_observer_not_notified (w : World) (d : ref) (dev : Device)
    (obs : Observer) (st : string)
    (Hd : devices w !! d = Some dev)
    (Hreg : NoDup (observers dev)) :
  exists w1 w2,
    remove_observer d obs w = Ok (tt, w1) /\
    set_state d st w1 = Ok (tt, w2) /\
    (obs ∉ receivers (emitted w1 w2)) /\
    (state dev ≠ st ->
       receivers (emitted w1 w2) = list_remove obs (observers dev) /\
       forall o, o ∈ observers dev -> o ≠ obs -> o ∈ receivers (emitted w1 w2)).
Proof.
  assert (exists w1 dev1,
             remove_observer d obs w = Ok (tt, w1) /\
             devices w1 !! d = Some dev1 /\
             state dev1 = state dev /\
             observers dev1 = list_remove obs (observers dev))
    as (w1 & dev1 & Hrun & Hd1 & Hst1 & Hobs1).
  { unfold remove_observer, bind, get_device. rewrite Hd.
    case_bool_decide as Hin.
    - do 2 eexists. split; [reflexivity|]. simpl.
      split; [apply lookup_insert_eq|]. done.
    - exists w, dev. repeat split; [done|]. by rewrite list_remove_not_elem_of. }
  exists w1, (with_state w1 d dev1 st).
  split; [done|]. split; [by apply set_state_ok|].
  rewrite (emitted_app _ _ (announce dev1 st)) by done.
  rewrite receivers_announce, Hst1, Hobs1.
  split.
  - case_bool_decide; [|apply not_elem_of_nil].
    intros [_ Hne]%list_remove_elem_of; done.
  - intros Hne. rewrite bool_decide_eq_true_2 by done. split; [done|].
    intros o Ho Hoo. by apply list_remove_elem_of.
Qed.

Lemma removed_observer_not_notified_witness :
  exists w1 w2,
    remove_observer light user_app living_room = Ok (tt, w1) /\
    set_state light "OFF" w1 = Ok (tt, w2) /\
    user_app ∉ receivers (emitted w1 w2).
Proof.
  destruct (removed_observer_not_notified living_room light
              (mkDevice "Living Room Light" "ON" [user_app]) user_app "OFF")
    as (w1 & w2 & Hrm & Hset & Hnot & _).
  - reflexivity.
  - apply NoDup_singleton.
  - by exists w1, w2.
Defined.

End Registration.

(** ** More on the history *)

Section Timeline.

Lemma target_nonempty (k : CommandClass) : Cmd.target k ≠ "".
Proof. by destruct k. Qed.

Lemma device_eta (dev : Device) :
  mkDevice (name dev) (state dev) (observers dev) = dev.
Proof. by destruct dev. Qed.

Lemma calls_app (ks1 ks2 : list History.Call) (h : CommandHistory) (w : World) :
  History.calls (ks1 ++ ks2) h w =
  match History.calls ks1 h w with
  | Ok (h', w') => History.calls ks2 h' w'
  | Raise e => Raise e
  end.
Proof.
  revert h w. induction ks1 as [|k ks1 IH]; intros h w; simpl; [done|].
  unfold bind. destruct (History.call k h w) as [[h1 w1]|e]; [apply IH | done].
Qed.

Lemma calls_one (k : History.Call) (h : CommandHistory) (w : World) :
  History.calls [k] h w = History.call k h w.
Proof.
  simpl. unfold bind, ret. by destruct (History.call k h w) as [[h1 w1]|e].
Qed.

(** Undoing a command whose device still has the status the command gave
    it puts the devices back as they were before the command. *)
Lemma cmd_undo_back (w' : World) (c : ref) (k : CommandClass) (d : ref)
    (devs0 : gmap ref Device) (dev : Device) (t : string) :
  commands w' !! c = Some (mkCommand k d (Some (state dev))) ->
  state dev ≠ "" ->
  devs0 !! d = Some dev ->
  devices w' = <[d := mkDevice (name dev) t (observers dev)]> devs0 ->
  exists w'', Cmd.undo c w' = Ok (tt, w'') /\
              devices w'' = devs0 /\
              commands w'' = commands w'.
Proof.
  intros Hc Hne Hd0 Hdevs.
  eexists. split.
  { apply (undo_truthy w' c (mkCommand k d (Some (state dev)))
             (mkDevice (name dev) t (observers dev)) (state dev));
      [exact Hc | reflexivity | exact Hne |].
    simpl. rewrite Hdevs. apply lookup_insert_eq. }
  simpl. split; [|done].
  rewrite Hdevs, insert_insert_eq, device_eta. by apply insert_id.
Qed.

(** X4: executing a command through the history and undoing it puts every
    device back exactly as it was (status, name and listeners), provided
    the status of the command's device was not the empty string; the
    command ends on the redo stack, alone, and the undo stack is as before. *)
Theorem undo_restores_devices (w : World) (h : CommandHistory) (c : ref)
    (cmd : Command) (dev : Device)
    (Hc : commands w !! c = Some cmd)
    (Hd : devices w !! device cmd = Some dev)
    (Hne : state dev ≠ "") :
  exists h1 w1 h2 w2,
    History.execute_command h c w = Ok (h1, w1) /\
    History.undo h1 w1 = Ok (h2, w2) /\
    devices w2 = devices w /\
    history h2 = history h /\
    redo_stack h2 = [c].
Proof.
  destruct (cmd_undo_back
              (mkWorld
                 (<[device cmd := mkDevice (name dev) (Cmd.target (cls cmd))
                                    (observers dev)]> (devices w))
                 (<[c := mkCommand (cls cmd) (device cmd) (Some (state dev))]>
                    (commands w))
                 (trace w ++ announce dev (Cmd.target (cls cmd))))
              c (cls cmd) (device cmd) (devices w) dev (Cmd.target (cls cmd)))
    as (w2 & Hundo & Hdevs & _); [apply lookup_insert_eq | done | done | done |].
  do 2 eexists. exists (mkHistory (history h) [c]), w2.
  split; [by apply execute_command_ok|].
  split; [|done].
  unfold History.undo; simpl. rewrite pop_snoc. unfold bind. by rewrite Hundo.
Qed.

Lemma undo_restores_devices_witness :
  exists h1 w1 h2 w2,
    History.execute_command (mkHistory [turn_on] [turn_on]) turn_off living_room
      = Ok (h1, w1) /\
    History.undo h1 w1 = Ok (h2, w2) /\
    devices w2 = devices living_room /\
    history h2 = [turn_on] /\
    redo_stack h2 = [turn_off].
Proof.
  apply (undo_restores_devices living_room (mkHistory [turn_on] [turn_on]) turn_off
           (mkCommand TurnOffCommand light None)
           (mkDevice "Living Room Light" "ON" [user_app])).
  - reflexivity.
  - reflexivity.
  - discriminate.
Defined.

(** X5: any number of distinct commands executed through the history, on
    any devices, and then undone as many times, leaves every device exactly
    as it was before the first of them, provided no device involved started
    with the empty status.  The undo stack is as before, the commands not
    involved are untouched, and the commands are on the redo stack, the
    first executed on top. *)
Theorem execute_all_undo_all (cs : list ref) (h : CommandHistory) (w : World)
    (Hdistinct : NoDup cs)
    (Hcs : executable w cs) :
  exists h' w',
    History.calls (map History.CallExecute cs ++ repeat History.CallUndo (length cs)) h w
      = Ok (h', w') /\
    devices w' = devices w /\
    (forall c0, c0 ∉ cs -> commands w' !! c0 = commands w !! c0) /\
    history h' = history h /\
    redo_stack h' = match cs with [] => redo_stack h | _ => rev cs end.
Proof.
  revert h w Hcs. induction Hdistinct as [|c rest Hnotin Hrest IH]; intros h w Hcs.
  - exists h, w. by repeat split.
  - destruct (Hcs c) as (cmd & dev & Hc & Hd & Hne); [by left|].
    simpl map. simpl length. simpl repeat.
    rewrite repeat_cons. simpl app. rewrite app_assoc.
    change (History.calls (History.CallExecute c :: ?ks) h w)
      with (bind (History.execute_command h c) (fun h' => History.calls ks h') w).
    unfold bind at 1. rewrite (execute_command_ok w h c cmd dev Hc Hd).
    set (w1 := mkWorld _ _ _). set (h1 := mkHistory _ _).
    assert (executable w1 rest) as Hrest1.
    { intros c' Hin.
      destruct (Hcs c') as (cmd' & dev' & Hc' & Hd' & Hne'); [by right|].
      assert (c ≠ c') as Hcc by (intros ->; done).
      exists cmd'. unfold w1; simpl. rewrite lookup_insert_ne by done.
      destruct (decide (device cmd = device cmd')) as [Heq|Hneq].
      - rewrite <- Heq. eexists. split; [done|].
        split; [apply lookup_insert_eq|]. simpl. apply target_nonempty.
      - exists dev'. rewrite lookup_insert_ne by done. done. }
    destruct (IH h1 w1 Hrest1) as (h2 & w2 & Hrun & Hdevs2 & Hframe2 & Hhist2 & Hredo2).
    rewrite calls_app, Hrun, calls_one. simpl History.call.
    destruct (cmd_undo_back w2 c (cls cmd) (device cmd) (devices w) dev
                (Cmd.target (cls cmd)))
      as (w3 & Hundo & Hdevs3 & Hcmds3); [|done|done|by rewrite Hdevs2|].
    { rewrite Hframe2 by done. unfold w1; simpl. apply lookup_insert_eq. }
    unfold History.undo. rewrite Hhist2. unfold h1. cbn [history].
    rewrite pop_snoc. unfold bind. rewrite Hundo. unfold ret.
    do 2 eexists. split; [reflexivity|]. simpl.
    split; [done|]. split.
    { intros c0 Hc0. apply not_elem_of_cons in Hc0 as [Hne0 Hc0].
      rewrite Hcmds3, Hframe2 by done. unfold w1; simpl.
      by rewrite lookup_insert_ne. }
    split; [done|].
    rewrite Hredo2. unfold h1. by destruct rest.
Qed.

Lemma execute_all_undo_all_witness :
  exists h' w',
    History.calls [History.CallExecute turn_off; History.CallExecute porch_on;
                   History.CallExecute turn_on;
                   History.CallUndo; History.CallUndo; History.CallUndo]
                  History.new two_lights = Ok (h', w') /\
    devices w' = devices two_lights /\
    history h' = [] /\
    redo_stack h' = [turn_on; porch_on; turn_off].
Proof.
  destruct (execute_all_undo_all [turn_off; porch_on; turn_on] History.new two_lights)
    as (h' & w' & Hrun & Hdevs & _ & Hhist & Hredo).
  - repeat constructor; intros Hin;
      repeat (apply elem_of_cons in Hin as [Hin|Hin]; [discriminate Hin|]);
      by apply elem_of_nil in Hin.
  - intros c Hin.
    apply elem_of_cons in Hin as [->|Hin];
      [by exists (mkCommand TurnOffCommand light None),
                 (mkDevice "Living Room Light" "ON" [user_app])|].
    apply elem_of_cons in Hin as [->|Hin];
      [by exists (mkCommand TurnOnCommand porch None),
                 (mkDevice "Porch Light" "OFF" [])|].
    apply list_elem_of_singleton in Hin as ->.
    by exists (mkCommand TurnOnCommand light None),
              (mkDevice "Living Room Light" "ON" [user_app]).
  - by exists h', w'.
Defined.

Lemma moves_timeline (ks : list History.Call) (h h' : CommandHistory) (w w' : World) :
  forallb is_move ks = true ->
  History.calls ks h w = Ok (h', w') ->
  timeline h' = timeline h.
Proof.
  revert h w. induction ks as [|k ks IH]; intros h w Hmoves; simpl.
  - by intros [= <- _].
  - simpl in Hmoves. apply andb_true_iff in Hmoves as [Hk Hmoves].
    unfold bind. destruct (History.call k h w) as [[h1 w1]|e] eqn:Hcall; [|done].
    intros Hrun. rewrite (IH h1 w1 Hmoves Hrun).
    apply call_stacks in Hcall. unfold timeline.
    destruct k as [c| |]; [done| |].
    + destruct Hcall as [[_ ->]|(rest & c & Hh & ->)]; [done|]. simpl.
      by rewrite Hh, rev_app_distr, <- app_assoc.
    + destruct Hcall as [[_ ->]|(rest & c & Hr & ->)]; [done|]. simpl.
      by rewrite Hr, rev_app_distr, <- app_assoc.
Qed.

(** X6: a sequence of [undo] and [redo] calls, however long and in whatever
    order, returns and never changes the timeline of the history: the undo
    stack followed by the redo stack read from its top is the same list of
    commands before and after, so no command is lost, doubled or reordered,
    and the two stacks together keep their size. *)
Theorem moves_keep_timeline (ks : list History.Call) (h : CommandHistory) (w : World)
    (Hmoves : forallb is_move ks = true)
    (Hwf : wf_world w)
    (Hstacks : stacks_in_store w h) :
  exists h' w',
    History.calls ks h w = Ok (h', w') /\
    timeline h' = timeline h /\
    length (history h') + length (redo_stack h')
      = length (history h) + length (redo_stack h).
Proof.
  destruct (calls_total ks h w Hwf Hstacks) as (h' & w' & Hrun).
  { intros c Hin. exfalso.
    rewrite forallb_forall in Hmoves.
    apply list_elem_of_In, Hmoves in Hin. discriminate Hin. }
  exists h', w'. split; [done|].
  pose proof (moves_timeline ks h h' w w' Hmoves Hrun) as Htl.
  split; [done|].
  apply (f_equal length) in Htl. unfold timeline in Htl.
  rewrite !length_app, !length_rev in Htl. exact Htl.
Qed.

Lemma living_room_wf : wf_world living_room.
Proof.
  intros c cmd Hc. unfold living_room in Hc; simpl in Hc.
  apply lookup_insert_Some in Hc as [[<- <-]|[_ Hc]]; [by eexists|].
  apply lookup_singleton_Some in Hc as [<- <-]. by eexists.
Defined.

Lemma moves_keep_timeline_witness :
  exists h' w',
    History.calls [History.CallUndo; History.CallUndo; History.CallRedo;
                   History.CallUndo; History.CallUndo; History.CallRedo]
                  (mkHistory [turn_off; turn_on] []) living_room = Ok (h', w') /\
    timeline h' = [turn_off; turn_on].
Proof.
  destruct (moves_keep_timeline
              [History.CallUndo; History.CallUndo; History.CallRedo;
               History.CallUndo; History.CallUndo; History.CallRedo]
              (mkHistory [turn_off; turn_on] []) living_room)
    as (h' & w' & Hrun & Htl & _).
  - reflexivity.
  - exact living_room_wf.
  - intros c Hin. simpl in Hin.
    apply elem_of_cons in Hin as [->|Hin]; [by eexists|].
    apply list_elem_of_singleton in Hin as ->. by eexists.
  - by exists h', w'.
Defined.

(** X7: [undo] followed by [redo] gives back both stacks as they were, and
    leaves the device of the command in the status the command stands for. *)
Theorem undo_then_redo (w : World) (h : CommandHistory) (rest : list ref) (c : ref)
    (cmd : Command) (dev : Device)
    (Hh : history h = rest ++ [c])
    (Hc : commands w !! c = Some cmd)
    (Hd : devices w !! device cmd = Some dev) :
  exists h1 w1 w2,
    History.undo h w = Ok (h1, w1) /\
    History.redo h1 w1 = Ok (h, w2) /\
    history h1 = rest /\
    status w2 (device cmd) = Some (Cmd.target (cls cmd)).
Proof.
  destruct (cmd_undo_total w c cmd dev Hc Hd) as (w1 & Hundo & Hcmds & st & Hdev).
  exists (mkHistory rest (redo_stack h ++ [c])), w1. eexists.
  split.
  { unfold History.undo. rewrite Hh, pop_snoc. unfold bind. by rewrite Hundo. }
  split.
  { rewrite (redo_ok w1 (mkHistory rest (redo_stack h ++ [c])) (redo_stack h) c cmd
               (mkDevice (name dev) st (observers dev)) eq_refl);
      [|by rewrite Hcmds|exact Hdev].
    simpl. rewrite <- Hh. by destruct h. }
  split; [done|].
  unfold status; simpl. by rewrite lookup_insert_eq.
Qed.

Lemma undo_then_redo_witness :
  exists h1 w1 w2,
    History.undo (mkHistory [turn_on; turn_off] []) living_room = Ok (h1, w1) /\
    History.redo h1 w1 = Ok (mkHistory [turn_on; turn_off] [], w2) /\
    history h1 = [turn_on] /\
    status w2 light = Some "OFF".
Proof.
  apply (undo_then_redo living_room (mkHistory [turn_on; turn_off] []) [turn_on] turn_off
           (mkCommand TurnOffCommand light None)
           (mkDevice "Living Room Light" "ON" [user_app]));
    reflexivity.
Defined.

(** X8: [redo] followed by [undo] gives back both stacks and every device
    exactly as they were, provided the status of the command's device was
    not the empty string. *)
Theorem redo_then_undo (w : World) (h : CommandHistory) (rest : list ref) (c : ref)
    (cmd : Command) (dev : Device)
    (Hr : redo_stack h = rest ++ [c])
    (Hc : commands w !! c = Some cmd)
    (Hd : devices w !! device cmd = Some dev)
    (Hne : state dev ≠ "") :
  exists h1 w1 w2,
    History.redo h w = Ok (h1, w1) /\
    History.undo h1 w1 = Ok (h, w2) /\
    devices w2 = devices w.
Proof.
  destruct (cmd_undo_back
              (mkWorld
                 (<[device cmd := mkDevice (name dev) (Cmd.target (cls cmd))
                                    (observers dev)]> (devices w))
                 (<[c := mkCommand (cls cmd) (device cmd) (Some (state dev))]>
                    (commands w))
                 (trace w ++ announce dev (Cmd.target (cls cmd))))
              c (cls cmd) (device cmd) (devices w) dev (Cmd.target (cls cmd)))
    as (w2 & Hundo & Hdevs & _); [apply lookup_insert_eq | done | done | done |].
  do 2 eexists. exists w2.
  split; [by apply (redo_ok w h rest c cmd dev)|].
  split; [|done].
  unfold History.undo; simpl. rewrite pop_snoc. unfold bind. rewrite Hundo.
  unfold ret. rewrite <- Hr. by destruct h.
Qed.

Lemma redo_then_undo_witness :
  exists h1 w1 w2,
    History.redo (mkHistory [turn_on] [turn_off]) living_room = Ok (h1, w1) /\
    History.undo h1 w1 = Ok (mkHistory [turn_on] [turn_off], w2) /\
    devices w2 = devices living_room.
Proof.
  apply (redo_then_undo living_room (mkHistory [turn_on] [turn_off]) [] turn_off
           (mkCommand TurnOffCommand light None)
           (mkDevice "Living Room Light" "ON" [user_app]));
    try reflexivity.
  discriminate.
Defined.

(** X10: a command that was never executed has nothing to undo: [undo] on a
    new command returns and leaves the store as it is, whatever the class of
    the command and whatever its device. *)
Theorem new_command_undo_noop (w : World) (k : CommandClass) (d : ref) :
  exists c w1,
    Cmd.new k d w = Ok (c, w1) /\
    commands w !! c = None /\
    commands w1 !! c = Some (mkCommand k d None) /\
    devices w1 = devices w /\
    trace w1 = trace w /\
    Cmd.undo c w1 = Ok (tt, w1).
Proof.
  do 2 eexists. split; [reflexivity|].
  split; [apply not_elem_of_dom, is_fresh|]. simpl.
  split; [apply lookup_insert_eq|]. split; [done|]. split; [done|].
  apply (undo_never_executed _ _ (mkCommand k d None)); [|done].
  simpl. apply lookup_insert_eq.
Qed.

Lemma same_wiring_refl (w : World) : same_wiring w w.
Proof. by repeat split. Qed.

Lemma same_wiring_trans (w1 w2 w3 : World) :
  same_wiring w1 w2 -> same_wiring w2 w3 -> same_wiring w1 w3.
Proof.
  intros (Hn & Ho & Hk & Hd) (Hn' & Ho' & Hk' & Hd').
  repeat split; intros x; congruence.
Qed.

Lemma with_state_wiring (w : World) (d : ref) (dev : Device) (st : string) :
  devices w !! d = Some dev -> same_wiring w (with_state w d dev st).
Proof.
  intros Hd. unfold with_state. repeat split; simpl; try done; intros d0.
  - rewrite lookup_insert. case_decide; [subst d0; by rewrite Hd | done].
  - rewrite lookup_insert. case_decide; [subst d0; by rewrite Hd | done].
Qed.

Lemma execute_wiring (w w' : World) (c : ref) :
  Cmd.execute c w = Ok (tt, w') -> same_wiring w w'.
Proof.
  unfold Cmd.execute, bind, get_command, get_device, put_command.
  destruct (commands w !! c) as [cmd|] eqn:Hc; [|done].
  destruct (devices w !! device cmd) as [dev|] eqn:Hd; [|done]. simpl.
  rewrite (set_state_ok _ _ dev) by done. intros [= <-].
  eapply same_wiring_trans; [|by apply with_state_wiring]. unfold same_wiring; simpl.
  repeat split; try done; intros c0.
  - rewrite lookup_insert. case_decide; [subst c0; by rewrite Hc | done].
  - rewrite lookup_insert. case_decide; [subst c0; by rewrite Hc | done].
Qed.

Lemma undo_wiring (w w' : World) (c : ref) :
  Cmd.undo c w = Ok (tt, w') -> same_wiring w w'.
Proof.
  unfold Cmd.undo, bind, get_command.
  destruct (commands w !! c) as [cmd|] eqn:Hc; [|done].
  destruct (previous_state cmd) as [prev|];
    [|intros [= <-]; apply same_wiring_refl].
  destruct (truthy prev); [|intros [= <-]; apply same_wiring_refl].
  destruct (devices w !! device cmd) as [dev|] eqn:Hd;
    [|by rewrite set_state_raises].
  rewrite (set_state_ok _ _ dev) by done. intros [= <-].
  by apply with_state_wiring.
Qed.

Lemma call_wiring (k : History.Call) (h h' : CommandHistory) (w w' : World) :
  History.call k h w = Ok (h', w') -> same_wiring w w'.
Proof.
  destruct k as [c| |]; simpl.
  - unfold History.execute_command, bind, ret.
    destruct (Cmd.execute c w) as [[[] w1]|e] eqn:Hrun; [|done].
    intros [= _ <-]. by apply (execute_wiring w w1 c).
  - unfold History.undo.
    destruct (pop (history h)) as [[rest c]|];
      [|intros [= _ <-]; apply same_wiring_refl].
    unfold bind, ret. destruct (Cmd.undo c w) as [[[] w1]|e] eqn:Hrun; [|done].
    intros [= _ <-]. by apply (undo_wiring w w1 c).
  - unfold History.redo.
    destruct (pop (redo_stack h)) as [[rest c]|];
      [|intros [= _ <-]; apply same_wiring_refl].
    unfold bind, ret. destruct (Cmd.execute c w) as [[[] w1]|e] eqn:Hrun; [|done].
    intros [= _ <-]. by apply (execute_wiring w w1 c).
Qed.

Lemma calls_wiring (ks : list History.Call) (h h' : CommandHistory) (w w' : World) :
  History.calls ks h w = Ok (h', w') -> same_wiring w w'.
Proof.
  revert h w. induction ks as [|k ks IH]; intros h w; simpl.
  - intros [= _ <-]. apply same_wiring_refl.
  - unfold bind. destruct (History.call k h w) as [[h1 w1]|e] eqn:Hcall; [|done].
    intros Hrun. eapply same_wiring_trans; [by eapply call_wiring | by eapply IH].
Qed.

(** X9: whatever calls are made on a history, they return and change
    nothing but statuses, captured statuses and the trace: no device is
    created or deleted, no device changes its name or its listeners, no
    command is created or deleted or changes its class or its device. *)
Theorem calls_keep_wiring (ks : list History.Call) (h : CommandHistory) (w : World)
    (Hwf : wf_world w)
    (Hstacks : stacks_in_store w h)
    (Hks : forall c, History.CallExecute c ∈ ks -> is_Some (commands w !! c)) :
  exists h' w',
    History.calls ks h w = Ok (h', w') /\
    same_wiring w w' /\
    dom (devices w') = dom (devices w) /\
    dom (commands w') = dom (commands w).
Proof.
  destruct (calls_total ks h w Hwf Hstacks Hks) as (h' & w' & Hrun).
  exists h', w'. split; [done|].
  pose proof (calls_wiring ks h h' w w' Hrun) as Hwire.
  split; [done|]. destruct Hwire as (Hn & _ & Hk & _).
  split; apply set_eq; intros x; rewrite !elem_of_dom.
  - rewrite <- !(fmap_is_Some name). by rewrite (Hn x).
  - rewrite <- !(fmap_is_Some cls). by rewrite (Hk x).
Qed.

Lemma calls_keep_wiring_witness :
  exists h' w',
    History.calls [History.CallExecute turn_off; History.CallUndo;
                   History.CallExecute turn_on; History.CallRedo]
                  History.new living_room = Ok (h', w') /\
    same_wiring living_room w'.
Proof.
  destruct (calls_keep_wiring
              [History.CallExecute turn_off; History.CallUndo;
               History.CallExecute turn_on; History.CallRedo]
              History.new living_room)
    as (h' & w' & Hrun & Hwire & _).
  - exact living_room_wf.
  - intros c Hin. by apply elem_of_nil in Hin.
  - intros c Hin.
    apply elem_of_cons in Hin as [[= ->]|Hin]; [by eexists|].
    apply elem_of_cons in Hin as [Hin|Hin]; [discriminate Hin|].
    apply elem_of_cons in Hin as [[= ->]|Hin]; [by eexists|].
    apply list_elem_of_singleton in Hin. discriminate Hin.
  - by exists h', w'.
Defined.

End Timeline.

(** ** The fan *)

Section FanButton.

Lemma press_times_run (n : nat) (fan : Fan) (w : World) :
  Fans.press_times n fan w =
  Ok (mkFan (Nat.iter n next_state (fan_state fan)),
      mkWorld (devices w) (commands w) (trace w ++ fan_lines n (fan_state fan))).
Proof.
  revert fan w. induction n as [|n IH]; intros [st] w.
  - simpl. unfold ret. rewrite app_nil_r. by destruct w.
  - rewrite Nat.iter_succ_r. simpl Fans.press_times.
    unfold bind at 1. unfold Fans.press_button.
    destruct st; simpl; unfold bind, emit, ret; simpl;
      rewrite IH; simpl; by rewrite <- app_assoc.
Qed.

Lemma next_state_period (st : FanState) :
  next_state (next_state (next_state (next_state st))) = st.
Proof. by destruct st. Qed.

Lemma iter_next_state_add4 (n : nat) (st : FanState) :
  Nat.iter (n + 4) next_state st = Nat.iter n next_state st.
Proof.
  induction n as [|n IH]; simpl; [apply next_state_period | by rewrite IH].
Qed.

Lemma iter_next_state_mod4 (n : nat) (st : FanState) :
  Nat.iter n next_state st = Nat.iter (n mod 4) next_state st.
Proof.
  assert (forall q r, Nat.iter (4 * q + r) next_state st = Nat.iter r next_state st)
    as Hq.
  { induction q as [|q IH]; intros r.
    - by rewrite Nat.mul_0_r.
    - replace (4 * S q + r) with ((4 * q + r) + 4) by lia.
      by rewrite iter_next_state_add4. }
  rewrite <- (Hq (n / 4) (n mod 4)). f_equal. apply Nat.div_mod_eq.
Qed.

(** X11: the button of the fan cycles with period four.  Presses always
    return and touch no device and no command; four presses bring a fan in
    any state back to that state; and the state after [n] presses is the
    state after [n mod 4] presses. *)
Theorem press_times_period (n : nat) (fan : Fan) (w : World) :
  exists fan_n w_n w_4 fan_r w_r,
    Fans.press_times n fan w = Ok (fan_n, w_n) /\
    devices w_n = devices w /\ commands w_n = commands w /\
    Fans.press_times 4 fan w = Ok (fan, w_4) /\
    Fans.press_times (n mod 4) fan w = Ok (fan_r, w_r) /\
    fan_n = fan_r.
Proof.
  do 5 eexists. rewrite !press_times_run.
  split; [reflexivity|]. cbn [devices commands]. split; [done|]. split; [done|].
  split.
  { cbn [Nat.iter nat_rect]. rewrite next_state_period. by destruct fan. }
  split; [reflexivity|]. f_equal. apply iter_next_state_mod4.
Qed.

Lemma fan_lines_length (n : nat) (st : FanState) : length (fan_lines n st) = n.
Proof. revert st. induction n as [|n IH]; intros st; simpl; [done|]. by rewrite IH. Qed.

Lemma fan_lines_last (n : nat) (st : FanState) :
  last (fan_lines (S n) st)
  = Some (Print ("Fan -> " +:+ speed (Nat.iter (S n) next_state st))).
Proof.
  revert st. induction n as [|n IH]; intros st; [done|].
  change (fan_lines (S (S n)) st)
    with (Print ("Fan -> " +:+ speed (next_state st)) :: fan_lines (S n) (next_state st)).
  rewrite last_cons, IH. by rewrite <- !Nat.iter_succ_r.
Qed.

(** X12: every press of the button prints one line, and the last line
    printed names the state the fan is in afterwards. *)
Theorem press_times_names_state (n : nat) (fan : Fan) (w : World) :
  exists fan' w',
    Fans.press_times (S n) fan w = Ok (fan', w') /\
    length (emitted w w') = S n /\
    printed (emitted w w') = emitted w w' /\
    last (emitted w w') = Some (Print ("Fan -> " +:+ speed (fan_state fan'))).
Proof.
  do 2 eexists. rewrite press_times_run. split; [reflexivity|].
  rewrite (emitted_app w _ (fan_lines (S n) (fan_state fan))) by done.
  split; [apply fan_lines_length|].
  split; [|apply fan_lines_last].
  generalize (S n) as m. generalize (fan_state fan) as st.
  intros st m. revert st. induction m as [|m IH]; intros st; simpl; [done|].
  by rewrite IH.
Qed.

(** The State section of the script: five presses on a new fan. *)
Example five_presses :
  exists w', Fans.press_times 5 Fans.new empty_world = Ok (mkFan LowState, w') /\
             trace w' = [Print "Fan -> LOW"; Print "Fan -> MEDIUM"; Print "Fan -> HIGH";
                         Print "Fan -> OFF"; Print "Fan -> LOW"].
Proof. eexists. split; reflexivity. Qed.

End FanButton.

(** ** The scheduler *)

Section Schedules.

(** X13: a scheduler only talks.  [apply] returns, changes no device and no
    command and calls no listener; with no strategy it prints nothing, and
    with a strategy it prints one line that begins with the name of the
    device, for the strategy set last. *)
Theorem apply_only_prints (w : World) (sch : Scheduler) (d : ref) (dev : Device)
    (Hd : devices w !! d = Some dev) :
  (exists w',
      Scheduling.apply sch d w = Ok (tt, w') /\
      devices w' = devices w /\ commands w' = commands w /\
      receivers (emitted w w') = [] /\
      match strategy sch with
      | None => emitted w w' = []
      | Some _ => exists rest, emitted w w' = [Print (name dev +:+ rest)]
      end) /\
  (forall s, exists w' rest,
      Scheduling.apply (Scheduling.set_strategy sch s) d w = Ok (tt, w') /\
      emitted w w' = [Print (name dev +:+ rest)] /\
      (s = TimedStrategy -> rest = " turns ON at 7 PM") /\
      (s = SensorStrategy -> rest = " turns ON if motion detected")).
Proof.
  split.
  - unfold Scheduling.apply. destruct (strategy sch) as [s|].
    + unfold Scheduling.run, bind, get_device. rewrite Hd.
      destruct s; (eexists; split; [reflexivity|]; simpl;
        split; [done|]; split; [done|];
        erewrite emitted_app by (simpl; reflexivity);
        split; [done|]; by eexists).
    + exists w. repeat split. all: by rewrite emitted_same.
  - intros s. unfold Scheduling.apply, Scheduling.set_strategy; simpl.
    unfold Scheduling.run, bind, get_device. rewrite Hd.
    destruct s; (do 2 eexists; split; [reflexivity|];
      erewrite emitted_app by (simpl; reflexivity);
      split; [reflexivity|]; split; intros; done).
Qed.

Lemma apply_only_prints_witness :
  exists w',
    Scheduling.apply (Scheduling.new (Some TimedStrategy)) light living_room
      = Ok (tt, w') /\
    devices w' = devices living_room /\ commands w' = commands living_room /\
    receivers (emitted living_room w') = [] /\
    exists rest, emitted living_room w' = [Print ("Living Room Light" +:+ rest)].
Proof.
  apply (apply_only_prints living_room (Scheduling.new (Some TimedStrategy)) light
           (mkDevice "Living Room Light" "ON" [user_app])).
  reflexivity.
Defined.

End Schedules.

(** ** The hub *)

Section Mediator.

(** X14: a command the hub cannot deliver changes nothing.  When no device
    is registered under the name, whatever the command, or when the command
    is neither [turn_on] nor [turn_off], whatever the device, [send_command]
    returns, leaves every device and command as it was, calls no listener
    and prints one line that says which of the two went wrong; the name is
    looked at first. *)
Theorem send_command_undelivered (w : World) (hub0 : SmartHomeHub)
    (device_name command : string) (args : list string)
    (Hfail : hub_devices hub0 !! device_name = None \/
             (command ≠ "turn_on" /\ command ≠ "turn_off")) :
  exists w',
    Hub.send_command hub0 device_name command args w = Ok (tt, w') /\
    devices w' = devices w /\ commands w' = commands w /\
    receivers (emitted w w') = [] /\
    (hub_devices hub0 !! device_name = None ->
       emitted w w' = [Print ("Device " +:+ device_name +:+ " not found")]) /\
    (is_Some (hub_devices hub0 !! device_name) ->
       emitted w w' = [Print ("Unknown command: " +:+ command)]).
Proof.
  unfold Hub.send_command.
  destruct (hub_devices hub0 !! device_name) as [d|] eqn:Hreg.
  - destruct Hfail as [?|[Hon Hoff]]; [done|].
    rewrite !bool_decide_eq_false_2 by done.
    eexists. split; [reflexivity|]. simpl.
    erewrite emitted_app by (simpl; reflexivity).
    repeat split; done.
  - eexists. split; [reflexivity|]. simpl.
    erewrite emitted_app by (simpl; reflexivity).
    repeat split; try done; by intros [? ?].
Qed.

Lemma send_command_undelivered_witness :
  exists w',
    Hub.send_command hub "living_room_light" "TURN_ON" [] living_room = Ok (tt, w') /\
    devices w' = devices living_room /\
    emitted living_room w' = [Print "Unknown command: TURN_ON"].
Proof.
  destruct (send_command_undelivered living_room hub "living_room_light" "TURN_ON" [])
    as (w' & Hrun & Hdevs & _ & _ & _ & Hunknown).
  - right. split; discriminate.
  - exists w'. split; [exact Hrun|]. split; [exact Hdevs|].
    apply Hunknown. by eexists.
Defined.

(** X15: a device registered under a name is the one commands sent to that
    name reach, whatever was registered under it before.  [turn_on] and
    [turn_off] then do what [set_state] does with ON and OFF, notifications
    included; no other device changes, and the other names of the hub keep
    their devices. *)
Theorem register_then_send (w : World) (hub0 : SmartHomeHub) (nm : string) (d : ref)
    (dev : Device) (args : list string)
    (Hd : devices w !! d = Some dev) :
  exists hub1 w1,
    Hub.register_device hub0 nm d w = Ok (hub1, w1) /\
    devices w1 = devices w /\
    emitted w w1 = [Print ("Registered " +:+ nm)] /\
    (forall nm', nm' ≠ nm -> hub_devices hub1 !! nm' = hub_devices hub0 !! nm') /\
    Hub.send_command hub1 nm "turn_on" args w1 = set_state d "ON" w1 /\
    Hub.send_command hub1 nm "turn_off" args w1 = set_state d "OFF" w1 /\
    (exists w2, Hub.send_command hub1 nm "turn_on" args w1 = Ok (tt, w2) /\
                status w2 d = Some "ON" /\
                emitted w1 w2 = announce dev "ON" /\
                forall d', d' ≠ d -> devices w2 !! d' = devices w !! d') /\
    (exists w2, Hub.send_command hub1 nm "turn_off" args w1 = Ok (tt, w2) /\
                status w2 d = Some "OFF" /\
                emitted w1 w2 = announce dev "OFF" /\
                forall d', d' ≠ d -> devices w2 !! d' = devices w !! d').
Proof.
  do 2 eexists. split; [reflexivity|]. simpl.
  split; [done|].
  split; [by erewrite emitted_app by (simpl; reflexivity)|].
  split; [intros nm' Hne; by rewrite lookup_insert_ne|].
  unfold Hub.send_command; simpl. rewrite lookup_insert_eq. simpl.
  split; [done|]. split; [done|].
  split.
  - eexists. split; [by apply (set_state_ok _ _ dev)|].
    split; [apply status_with_state|].
    split; [by apply emitted_app|].
    intros d' Hne. simpl. by rewrite lookup_insert_ne.
  - eexists. split; [by apply (set_state_ok _ _ dev)|].
    split; [apply status_with_state|].
    split; [by apply emitted_app|].
    intros d' Hne. simpl. by rewrite lookup_insert_ne.
Qed.

Lemma register_then_send_witness :
  exists hub1 w1 w2,
    Hub.register_device hub "living_room_light" porch two_lights = Ok (hub1, w1) /\
    Hub.send_command hub1 "living_room_light" "turn_on" [] w1 = Ok (tt, w2) /\
    status w2 porch = Some "ON" /\
    status w2 light = status two_lights light.
Proof.
  destruct (register_then_send two_lights hub "living_room_light" porch
              (mkDevice "Porch Light" "OFF" []) [])
    as (hub1 & w1 & Hreg & _ & _ & _ & _ & _ & (w2 & Hsend & Hst & _ & Hframe) & _).
  - reflexivity.
  - exists hub1, w1, w2. split; [exact Hreg|]. split; [exact Hsend|].
    split; [exact Hst|]. unfold status. by rewrite (Hframe light).
Defined.

End Mediator.

(** ** More on the caretaker *)

Section SaveRestore.

Lemma py_index_nat {A} (l : list A) (i : nat) : py_index l (Z.of_nat i) = l !! i.
Proof.
  unfold py_index. rewrite (proj2 (Z.leb_le 0 (Z.of_nat i))) by lia.
  rewrite Nat2Z.id.
  destruct (Z.of_nat i <? Z.of_nat (length l))%Z eqn:Hlt; [done|].
  symmetry. apply lookup_ge_None. apply Z.ltb_ge in Hlt. lia.
Qed.

Lemma py_index_from_end {A} (l : list A) (i : nat) :
  i < length l -> py_index l (Z.of_nat i - Z.of_nat (length l)) = l !! i.
Proof.
  intros Hi. unfold py_index.
  rewrite (proj2 (Z.leb_gt 0 _)) by lia.
  rewrite (proj2 (Z.leb_le _ _)) by lia.
  f_equal. lia.
Qed.

Lemma py_index_out_of_range {A} (l : list A) (i : Z) :
  (i < - Z.of_nat (length l) \/ Z.of_nat (length l) <= i)%Z -> py_index l i = None.
Proof.
  intros Hout. destruct (py_index l i) as [x|] eqn:Hx; [|done].
  assert (is_Some (py_index l i)) as Hs by (by eexists).
  apply py_index_in_range in Hs. lia.
Qed.

(** X16: what [save_state] saves, [restore_state()] gives back.  Saving
    changes no device; after any [set_state] on the device in between, the
    restore puts the device back exactly as it was at the save, and with it
    the whole store of devices. *)
Theorem save_then_restore (w : World) (ct : DeviceCaretaker) (dev : Device) (st : string)
    (Hd : devices w !! caretaker_device ct = Some dev) :
  exists memento ct1 w1 w2 w3,
    Caretaker.save_state ct w = Ok ((memento, ct1), w1) /\
    memento_state memento = state dev /\
    saved_states ct1 = saved_states ct ++ [memento] /\
    devices w1 = devices w /\
    set_state (caretaker_device ct) st w1 = Ok (tt, w2) /\
    status w2 (caretaker_device ct) = Some st /\
    Caretaker.restore_last ct1 w2 = Ok (tt, w3) /\
    devices w3 = devices w.
Proof.
  exists (mkMemento (state dev)),
         (mkCaretaker (caretaker_device ct) (saved_states ct ++ [mkMemento (state dev)])).
  do 3 eexists.
  split.
  { unfold Caretaker.save_state, bind, get_device. rewrite Hd. reflexivity. }
  simpl. split; [done|]. split; [done|]. split; [done|].
  split; [by apply (set_state_ok _ _ dev)|].
  split; [apply status_with_state|].
  split.
  { apply (restore_state_found _ _ (mkDevice (name dev) st (observers dev)));
      [simpl; apply lookup_insert_eq|].
    rewrite py_index_last; simpl; [apply last_snoc|].
    by destruct (saved_states ct). }
  simpl. rewrite insert_insert_eq, device_eta. by apply insert_id.
Qed.

Lemma save_then_restore_witness :
  exists memento ct1 w1 w2 w3,
    Caretaker.save_state (Caretaker.new light) living_room = Ok ((memento, ct1), w1) /\
    memento_state memento = "ON" /\
    set_state light "OFF" w1 = Ok (tt, w2) /\
    Caretaker.restore_last ct1 w2 = Ok (tt, w3) /\
    devices w3 = devices living_room.
Proof.
  destruct (save_then_restore living_room (Caretaker.new light)
              (mkDevice "Living Room Light" "ON" [user_app]) "OFF")
    as (m & ct1 & w1 & w2 & w3 & Hsave & Hm & _ & _ & Hset & _ & Hrestore & Hdevs).
  - reflexivity.
  - by exists m, ct1, w1, w2, w3.
Defined.

(** X17: with nothing saved, [restore_state] restores nothing and does
    not fail: for every index, in range of nothing as it is, it returns,
    leaves every device and command as it was and prints that there is no
    saved state. *)
Theorem restore_state_nothing_saved (w : World) (ct : DeviceCaretaker) (index : Z)
    (Hempty : saved_states ct = []) :
  exists w',
    Caretaker.restore_state ct index w = Ok (tt, w') /\
    devices w' = devices w /\ commands w' = commands w /\
    emitted w w' = [Print "No saved states to restore"].
Proof.
  unfold Caretaker.restore_state. rewrite Hempty.
  eexists. split; [reflexivity|]. simpl.
  by erewrite emitted_app by (simpl; reflexivity).
Qed.

Lemma restore_state_nothing_saved_witness :
  exists w',
    Caretaker.restore_state (Caretaker.new light) 5 living_room = Ok (tt, w') /\
    devices w' = devices living_room /\ commands w' = commands living_room /\
    emitted living_room w' = [Print "No saved states to restore"].
Proof.
  apply (restore_state_nothing_saved living_room (Caretaker.new light) 5). reflexivity.
Defined.

(** X18: [restore_state(index)] follows Python's indexing of the saved
    states.  The state saved at position [i], counted from the oldest, is
    restored by index [i] and, to the same effect, by index [i] less the
    number of saved states; an index below minus that number, or not below
    that number, raises [IndexError]. *)
Theorem restore_state_by_index (w : World) (ct : DeviceCaretaker) (dev : Device)
    (i : nat) (memento : DeviceMemento)
    (Hd : devices w !! caretaker_device ct = Some dev)
    (Hi : saved_states ct !! i = Some memento) :
  (exists w',
      Caretaker.restore_state ct (Z.of_nat i) w = Ok (tt, w') /\
      Caretaker.restore_state ct (Z.of_nat i - Z.of_nat (length (saved_states ct))) w
        = Ok (tt, w') /\
      status w' (caretaker_device ct) = Some (memento_state memento)) /\
  (forall index : Z,
      (index < - Z.of_nat (length (saved_states ct)) \/
       Z.of_nat (length (saved_states ct)) <= index)%Z ->
      Caretaker.restore_state ct index w = Raise IndexError).
Proof.
  split.
  - eexists. split; [|split].
    + apply (restore_state_found w ct dev); [done|]. by rewrite py_index_nat.
    + apply (restore_state_found w ct dev); [done|].
      rewrite py_index_from_end; [done|]. by apply lookup_lt_Some in Hi.
    + unfold status; simpl. by rewrite lookup_insert_eq.
  - intros index Hout. unfold Caretaker.restore_state.
    rewrite (py_index_out_of_range _ _ Hout).
    destruct (saved_states ct); [by rewrite lookup_nil in Hi | done].
Qed.

Lemma restore_state_by_index_witness :
  (exists w',
      Caretaker.restore_state three_saves 1 living_room = Ok (tt, w') /\
      Caretaker.restore_state three_saves (-2) living_room = Ok (tt, w') /\
      status w' light = Some "DIM") /\
  Caretaker.restore_state three_saves 3 living_room = Raise IndexError /\
  Caretaker.restore_state three_saves (-4) living_room = Raise IndexError.
Proof.
  destruct (restore_state_by_index living_room three_saves
              (mkDevice "Living Room Light" "ON" [user_app]) 1 (mkMemento "DIM"))
    as [Hfound Hout]; [reflexivity..|].
  split; [exact Hfound|].
  split; apply Hout; simpl; lia.
Defined.

(** X19: a restore is never announced, not even afterwards.  After
    [restore_state()] has written a saved status into the device, a
    [set_state] with that same status finds nothing changed: it calls no
    listener and prints nothing, whatever the status of the device was
    before the restore and whoever listens. *)
Theorem restore_hides_change (w : World) (ct : DeviceCaretaker) (dev : Device)
    (memento : DeviceMemento)
    (Hd : devices w !! caretaker_device ct = Some dev)
    (Hlast : last (saved_states ct) = Some memento) :
  exists w1 w2,
    Caretaker.restore_last ct w = Ok (tt, w1) /\
    set_state (caretaker_device ct) (memento_state memento) w1 = Ok (tt, w2) /\
    status w2 (caretaker_device ct) = Some (memento_state memento) /\
    emitted w1 w2 = [] /\
    receivers (emitted w w1) = [].
Proof.
  do 2 eexists. split.
  { apply (restore_state_found w ct dev); [done|].
    rewrite py_index_last; [done|]. intros Hnil. by rewrite Hnil in Hlast. }
  split.
  { apply (set_state_ok _ _ (mkDevice (name dev) (memento_state memento) (observers dev))).
    simpl. apply lookup_insert_eq. }
  split; [apply status_with_state|].
  split.
  - apply emitted_app. unfold with_state, announce; simpl.
    rewrite bool_decide_eq_false_2; [done|]. by intros Hne.
  - by erewrite emitted_app by (simpl; reflexivity).
Qed.

Lemma restore_hides_change_witness :
  exists w1 w2,
    Caretaker.restore_last caretaker living_room = Ok (tt, w1) /\
    set_state light "OFF" w1 = Ok (tt, w2) /\
    status w2 light = Some "OFF" /\
    emitted w1 w2 = [] /\
    receivers (emitted living_room w1) = [].
Proof.
  apply (restore_hides_change living_room caretaker
           (mkDevice "Living Room Light" "ON" [user_app]) (mkMemento "OFF"));
    reflexivity.
Defined.

End SaveRestore.

(** ** More on the interpreter *)

Section Keywords.

(** The four branches of [interpret], by what the text says. *)
Lemma interpret_branches (w : World) (d : ref) (dev : Device) (command_text : string) :
  devices w !! d = Some dev ->
  interpret command_text d w =
  if says_on command_text then
    Ok ("Turning " +:+ name dev +:+ " ON", with_state w d dev "ON")
  else if says_off command_text then
    Ok ("Turning " +:+ name dev +:+ " OFF", with_state w d dev "OFF")
  else if says_toggle command_text then
    let new_state := if bool_decide (state dev = "ON") then "OFF" else "ON" in
    Ok ("Toggling " +:+ name dev +:+ " to " +:+ new_state, with_state w d dev new_state)
  else Ok ("Command not recognized", w).
Proof.
  intros Hd. unfold interpret, says_on, says_off, says_toggle.
  destruct (str_in "turn on" _ || str_in "switch on" _).
  { unfold bind at 1. rewrite (set_state_ok _ _ dev) by done.
    unfold bind, get_device; simpl. by rewrite lookup_insert_eq. }
  destruct (str_in "turn off" _ || str_in "switch off" _).
  { unfold bind at 1. rewrite (set_state_ok _ _ dev) by done.
    unfold bind, get_device; simpl. by rewrite lookup_insert_eq. }
  destruct (str_in "toggle" _); [|done].
  unfold bind at 1. unfold get_device at 1. rewrite Hd.
  unfold bind at 1. rewrite (set_state_ok _ _ dev) by done.
  unfold bind, get_device; simpl. by rewrite lookup_insert_eq.
Qed.

(** X20: the keywords have an order.  A text that says to turn or switch
    on sets the device ON whatever else it says, [off] and [toggle]
    included; a text that does not, and says to turn or switch off, sets it
    OFF whatever it says of toggling.  Either way the listeners hear of it
    as from [set_state], and the reply names the device. *)
Theorem interpret_on_before_off (w : World) (d : ref) (dev : Device) (command_text : string)
    (Hd : devices w !! d = Some dev) :
  (says_on command_text = true ->
     exists w', interpret command_text d w = Ok ("Turning " +:+ name dev +:+ " ON", w') /\
                status w' d = Some "ON" /\
                emitted w w' = announce dev "ON") /\
  (says_on command_text = false -> says_off command_text = true ->
     exists w', interpret command_text d w = Ok ("Turning " +:+ name dev +:+ " OFF", w') /\
                status w' d = Some "OFF" /\
                emitted w w' = announce dev "OFF").
Proof.
  rewrite (interpret_branches w d dev command_text Hd). split.
  - intros ->. eexists. split; [done|].
    split; [apply status_with_state | by apply emitted_app].
  - intros -> ->. eexists. split; [done|].
    split; [apply status_with_state | by apply emitted_app].
Qed.

Lemma interpret_on_before_off_witness :
  exists w',
    interpret "Turn off everything, then TURN ON and toggle" light living_room
      = Ok ("Turning Living Room Light ON", w') /\
    status w' light = Some "ON" /\
    emitted living_room w' = [].
Proof.
  destruct (interpret_on_before_off living_room light
              (mkDevice "Living Room Light" "ON" [user_app])
              "Turn off everything, then TURN ON and toggle")
    as [Hon _]; [reflexivity|].
  apply Hon. reflexivity.
Defined.

(** X21: a text with none of the keywords is not a command: [interpret]
    answers that it does not recognize it and leaves the whole store as it
    is, trace included, even when the device does not exist. *)
Theorem interpret_unrecognized (w : World) (d : ref) (command_text : string)
    (Hon : says_on command_text = false)
    (Hoff : says_off command_text = false)
    (Htoggle : says_toggle command_text = false) :
  interpret command_text d w = Ok ("Command not recognized", w).
Proof.
  unfold says_on, says_off, says_toggle in *. unfold interpret.
  by rewrite Hon, Hoff, Htoggle.
Qed.

Lemma interpret_unrecognized_witness :
  interpret "turn  on the lights" 9 living_room = Ok ("Command not recognized", living_room).
Proof.
  apply (interpret_unrecognized living_room 9 "turn  on the lights"); reflexivity.
Defined.

(** X22: toggling twice gives the status back only when it was ON or OFF.
    After one toggle the status is ON or OFF; after two it is ON when it
    was ON at the start and OFF in every other case, so a device that was
    in a third status does not return to it.  Name and listeners are kept. *)
Theorem interpret_toggle_twice (w : World) (d : ref) (dev : Device) (text1 text2 : string)
    (Hd : devices w !! d = Some dev)
    (Hon1 : says_on text1 = false) (Hoff1 : says_off text1 = false)
    (Htoggle1 : says_toggle text1 = true)
    (Hon2 : says_on text2 = false) (Hoff2 : says_off text2 = false)
    (Htoggle2 : says_toggle text2 = true) :
  exists reply1 w1 reply2 w2,
    interpret text1 d w = Ok (reply1, w1) /\
    (status w1 d = Some "ON" \/ status w1 d = Some "OFF") /\
    interpret text2 d w1 = Ok (reply2, w2) /\
    devices w2 !! d
      = Some (mkDevice (name dev)
                       (if bool_decide (state dev = "ON") then "ON" else "OFF")
                       (observers dev)) /\
    (state dev = "ON" \/ state dev = "OFF" -> devices w2 = devices w).
Proof.
  do 4 eexists.
  split.
  { rewrite (interpret_branches w d dev text1 Hd), Hon1, Hoff1, Htoggle1. reflexivity. }
  split.
  { rewrite status_with_state. case_bool_decide; [by right | by left]. }
  split.
  { erewrite (interpret_branches _ d _ text2); [|simpl; apply lookup_insert_eq].
    rewrite Hon2, Hoff2, Htoggle2. reflexivity. }
  simpl. rewrite insert_insert_eq.
  split.
  - rewrite lookup_insert_eq. f_equal. f_equal.
    by destruct (bool_decide (state dev = "ON")).
  - intros Hst. apply insert_id. rewrite Hd. f_equal.
    destruct dev as [nm st obss]; simpl in *. f_equal.
    destruct Hst as [->| ->]; reflexivity.
Qed.

Lemma interpret_toggle_twice_witness :
  exists reply1 w1 reply2 w2,
    interpret "toggle light" light living_room = Ok (reply1, w1) /\
    interpret "Toggle it back" light w1 = Ok (reply2, w2) /\
    devices w2 = devices living_room.
Proof.
  destruct (interpret_toggle_twice living_room light
              (mkDevice "Living Room Light" "ON" [user_app])
              "toggle light" "Toggle it back")
    as (r1 & w1 & r2 & w2 & Hrun1 & _ & Hrun2 & _ & Hback); try reflexivity.
  exists r1, w1, r2, w2. split; [exact Hrun1|]. split; [exact Hrun2|].
  apply Hback. by left.
Defined.

End Keywords.

(** ** Case and margins of a command text *)

Section Normalisation.

Lemma isspace_lower (c : ascii) : isspace (lower_ascii c) = isspace c.
Proof. destruct c as [[] [] [] [] [] [] [] []]; reflexivity. Qed.

Lemma lower_ascii_idem (c : ascii) : lower_ascii (lower_ascii c) = lower_ascii c.
Proof. destruct c as [[] [] [] [] [] [] [] []]; reflexivity. Qed.

Lemma lower_idem (s : string) : lower (lower s) = lower s.
Proof.
  induction s as [|c s IH]; simpl; [done|]. by rewrite lower_ascii_idem, IH.
Qed.

Lemma lower_lstrip (s : string) : lower (lstrip s) = lstrip (lower s).
Proof.
  induction s as [|c s IH]; simpl; [done|].
  rewrite isspace_lower. by destruct (isspace c).
Qed.

Lemma lower_rstrip (s : string) : lower (rstrip s) = rstrip (lower s).
Proof.
  induction s as [|c s IH]; simpl; [done|].
  rewrite <- IH, isspace_lower.
  destruct (rstrip s) as [|b r]; simpl; [destruct (isspace c); reflexivity | reflexivity].
Qed.

Lemma lower_strip (s : string) : lower (strip s) = strip (lower s).
Proof. unfold strip. by rewrite lower_rstrip, lower_lstrip. Qed.

Lemma rstrip_idem (s : string) : rstrip (rstrip s) = rstrip s.
Proof.
  induction s as [|c s IH]; simpl; [done|].
  destruct (rstrip s) as [|b r] eqn:Hr.
  - destruct (isspace c) eqn:Hc; simpl; [done|]. by rewrite Hc.
  - change (rstrip (String c (String b r)))
      with (match rstrip (String b r) with
            | EmptyString => if isspace c then EmptyString else String c EmptyString
            | r' => String c r'
            end).
    by rewrite IH.
Qed.

(** [lstrip] leaves nothing or a text that begins with a character that is
    not white space, and [rstrip] keeps such a beginning. *)
Lemma lstrip_head (s : string) :
  lstrip s = "" \/ exists a t, lstrip s = String a t /\ isspace a = false.
Proof.
  induction s as [|c s IH]; simpl; [by left|].
  destruct (isspace c) eqn:Hc; [done|]. right. by exists c, s.
Qed.

Lemma lstrip_rstrip_head (a : ascii) (t : string) :
  isspace a = false -> lstrip (rstrip (String a t)) = rstrip (String a t).
Proof.
  intros Ha. simpl. destruct (rstrip t); rewrite ?Ha; simpl; by rewrite Ha.
Qed.

Lemma strip_idem (s : string) : strip (strip s) = strip s.
Proof.
  unfold strip. destruct (lstrip_head s) as [->|(a & t & -> & Ha)]; [done|].
  by rewrite lstrip_rstrip_head, rstrip_idem.
Qed.

(** X23: [interpret] reads a command text without regard to the case of
    its letters and to the white space around it: the text in lower case,
    and the text without its margins, get the same reply and leave the same
    store as the text itself, on every device and in every store. *)
Theorem interpret_ignores_case_and_margins (command_text : string) (d : ref) (w : World) :
  interpret (lower command_text) d w = interpret command_text d w /\
  interpret (strip command_text) d w = interpret command_text d w /\
  interpret (strip (lower command_text)) d w = interpret command_text d w.
Proof.
  unfold interpret.
  rewrite lower_idem, (lower_strip command_text), strip_idem.
  rewrite (lower_strip (lower command_text)), lower_idem, strip_idem.
  done.
Qed.

End Normalisation.

(** ** More on the alert chain *)

Section ChainOrder.

Lemma level_inj (k k' : HandlerKind) : level k = level k' -> k = k'.
Proof. by destruct k, k'. Qed.

Lemma printed_alert_trace_match (ks : list HandlerKind) (k : HandlerKind)
    (alert_level message : string) :
  k ∈ ks -> alert_level = level k ->
  printed (alert_trace ks alert_level message) = [Print (alert_line k message)].
Proof.
  intros Hin Hk. induction ks as [|k0 ks IH]; [by apply elem_of_nil in Hin|].
  simpl. case_bool_decide as Hk0.
  - rewrite Hk in Hk0. apply level_inj in Hk0. by subst k0.
  - apply elem_of_cons in Hin as [->|Hin]; [done|]. by apply IH.
Qed.

Lemma printed_alert_trace_none (ks : list HandlerKind) (alert_level message : string) :
  (forall k, k ∈ ks -> alert_level ≠ level k) ->
  printed (alert_trace ks alert_level message) = [].
Proof.
  intros Hnone. rewrite alert_trace_no_match by done. apply printed_entries.
Qed.

(** X24: what an alert prints depends on its level and on which handler
    classes are in the chain, not on their order or number.  A dispatch
    prints at most one line; when a handler of the alert's level is anywhere
    in the chain it is the line of that class; and two chains made of the
    same classes print the same for every alert. *)
Theorem handle_alert_order_free (h : AlertHandler) (alert_level message : string)
    (w : World) :
  exists w',
    handle_alert h alert_level message w = Ok (tt, w') /\
    length (printed (emitted w w')) <= 1 /\
    (forall k, k ∈ chain h -> alert_level = level k ->
               printed (emitted w w') = [Print (alert_line k message)]) /\
    (forall h2, (forall k, k ∈ chain h <-> k ∈ chain h2) ->
       exists w2, handle_alert h2 alert_level message w = Ok (tt, w2) /\
                  printed (emitted w w2) = printed (emitted w w')).
Proof.
  eexists. split; [apply handle_alert_run|].
  rewrite (emitted_app w _ (alert_trace (chain h) alert_level message)) by done.
  destruct (decide (Exists (fun k => alert_level = level k) (chain h))) as [Hex|Hnone].
  - apply Exists_exists in Hex as (k & Hin & Hk).
    rewrite (printed_alert_trace_match _ k) by done.
    split; [simpl; lia|]. split.
    + intros k' Hin' Hk'. rewrite Hk in Hk'. apply level_inj in Hk'. by subst k'.
    + intros h2 Hsame. eexists. split; [apply handle_alert_run|].
      rewrite (emitted_app w _ (alert_trace (chain h2) alert_level message)) by done.
      apply printed_alert_trace_match; [by apply Hsame | done].
  - assert (forall k, k ∈ chain h -> alert_level ≠ level k) as Hno.
    { intros k Hin Hk. apply Hnone, Exists_exists. by exists k. }
    rewrite printed_alert_trace_none by done.
    split; [simpl; lia|]. split.
    + intros k Hin Hk. by destruct (Hno k Hin).
    + intros h2 Hsame. eexists. split; [apply handle_alert_run|].
      rewrite (emitted_app w _ (alert_trace (chain h2) alert_level message)) by done.
      apply printed_alert_trace_none. intros k Hin. by apply Hno, Hsame.
Qed.

End ChainOrder.

(** ** Notifications over time *)

Section Changes.

Lemma receivers_app (t1 t2 : list Event) :
  receivers (t1 ++ t2) = receivers t1 ++ receivers t2.
Proof. unfold receivers. apply omap_app. Qed.

Lemma count_receivers_announce (dev : Device) (st : string) (o : Observer) :
  NoDup (observers dev) -> o ∈ observers dev ->
  count_occ Observer_eq_dec (receivers (announce dev st)) o
  = if bool_decide (state dev ≠ st) then 1 else 0.
Proof.
  intros Hreg Hin. rewrite receivers_announce. case_bool_decide; [|done].
  apply (proj1 (NoDup_count_occ' Observer_eq_dec (observers dev))
           (proj1 (NoDup_ListNoDup _) Hreg)).
  by apply list_elem_of_In.
Qed.

Lemma last_cons_default {A} (x d : A) (l : list A) :
  List.last (x :: l) d = List.last l x.
Proof.
  revert x d. induction l as [|y l IH]; intros x d; [done|].
  change (List.last (x :: y :: l) d) with (List.last (y :: l) d).
  by rewrite !IH.
Qed.

Lemma set_states_run (d : ref) (sts : list string) (w : World) (dev : Device) :
  devices w !! d = Some dev ->
  NoDup (observers dev) ->
  exists w' t,
    for_each sts (set_state d) w = Ok (tt, w') /\
    trace w' = trace w ++ t /\
    devices w' !! d = Some (mkDevice (name dev) (List.last sts (state dev)) (observers dev)) /\
    forall o, o ∈ observers dev ->
      count_occ Observer_eq_dec (receivers t) o = changes (state dev) sts.
Proof.
  revert w dev. induction sts as [|st sts IH]; intros w dev Hd Hreg.
  - exists w, []. split; [done|]. rewrite app_nil_r. split; [done|].
    split; [by rewrite device_eta|]. done.
  - destruct (IH (with_state w d dev st) (mkDevice (name dev) st (observers dev)))
      as (w' & t & Hrun & Htrace & Hdev & Hcount);
      [simpl; apply lookup_insert_eq | done |].
    exists w', (announce dev st ++ t).
    split.
    { simpl. unfold bind. by rewrite (set_state_ok _ _ dev). }
    split; [rewrite Htrace; simpl; by rewrite app_assoc|].
    split.
    { rewrite Hdev. cbn [name state observers]. by rewrite last_cons_default. }
    intros o Hin. rewrite receivers_app, count_occ_app.
    rewrite count_receivers_announce by done.
    rewrite (Hcount o Hin). reflexivity.
Qed.

(** X25: listeners are called once per change of status, over any sequence
    of [set_state] calls.  When a device is set to a list of statuses one
    after the other, the calls return, the device ends in the last of them,
    and each registered listener has been called as many times as the
    status differed from the one before it; a listener that is not
    registered has not been called. *)
Theorem set_states_notify_per_change (w : World) (d : ref) (dev : Device)
    (sts : list string)
    (Hd : devices w !! d = Some dev)
    (Hreg : NoDup (observers dev)) :
  exists w',
    for_each sts (set_state d) w = Ok (tt, w') /\
    status w' d = Some (List.last sts (state dev)) /\
    (forall o, o ∈ observers dev ->
       count_occ Observer_eq_dec (receivers (emitted w w')) o = changes (state dev) sts) /\
    (forall o, o ∉ observers dev ->
       count_occ Observer_eq_dec (receivers (emitted w w')) o = 0).
Proof.
  destruct (set_states_run d sts w dev Hd Hreg) as (w' & t & Hrun & Htrace & Hdev & Hcount).
  exists w'. split; [done|].
  split; [unfold status; by rewrite Hdev|].
  rewrite (emitted_app w w' t Htrace). split; [done|].
  intros o Hnotin. clear Hcount Hdev. revert w dev w' t Hd Hreg Hrun Htrace Hnotin.
  induction sts as [|st sts IH]; intros w dev w' t Hd Hreg Hrun Htrace Hnotin.
  - injection Hrun as <-. rewrite <- (app_nil_r (trace w)) in Htrace at 1.
    apply app_inv_head in Htrace. by subst t.
  - simpl in Hrun. unfold bind in Hrun. rewrite (set_state_ok _ _ dev) in Hrun by done.
    assert (exists t', t = announce dev st ++ t' /\
                       trace w' = trace (with_state w d dev st) ++ t') as (t' & -> & Htrace').
    { destruct (set_states_run d sts (with_state w d dev st)
                  (mkDevice (name dev) st (observers dev)))
        as (w'' & t' & Hrun' & Htrace' & _); [simpl; apply lookup_insert_eq | done |].
      rewrite Hrun' in Hrun. injection Hrun as <-.
      exists t'. split; [|done].
      rewrite Htrace' in Htrace. simpl in Htrace. rewrite <- app_assoc in Htrace.
      by apply app_inv_head in Htrace. }
    rewrite receivers_app, count_occ_app.
    rewrite (IH (with_state w d dev st) (mkDevice (name dev) st (observers dev)) w' t');
      [|simpl; apply lookup_insert_eq|done|done|done|done].
    rewrite receivers_announce. case_bool_decide; [|done].
    rewrite Nat.add_0_r. apply count_occ_not_In. by rewrite <- list_elem_of_In.
Qed.

Lemma set_states_notify_per_change_witness :
  exists w',
    for_each ["ON"; "OFF"; "OFF"; "DIM"; "DIM"; "ON"] (set_state light) living_room
      = Ok (tt, w') /\
    status w' light = Some "ON" /\
    count_occ Observer_eq_dec (receivers (emitted living_room w')) user_app = 3.
Proof.
  destruct (set_states_notify_per_change living_room light
              (mkDevice "Living Room Light" "ON" [user_app])
              ["ON"; "OFF"; "OFF"; "DIM"; "DIM"; "ON"])
    as (w' & Hrun & Hst & Hcount & _).
  - reflexivity.
  - apply NoDup_singleton.
  - exists w'. split; [exact Hrun|]. split; [exact Hst|].
    apply (Hcount user_app). by apply list_elem_of_singleton.
Defined.

End Changes.
